(** * photospider: the two git-log converters of [util/99-filed]

    [to_json.py] (stats mode, "variant A") and [to_jsonl.py] (patch mode,
    "variant B") read a dump of [git log] whose records are separated by
    the control character 0x1E and whose header fields are separated by
    0x1F, and write the commits out as JSON.

    The development is a shallow embedding of both scripts:

    - [Py] models the Python builtins the scripts call ([bytes.decode],
      [str.split], [str.strip], [str.lstrip], [str.splitlines],
      [str.join], [int], [re.finditer] for the one pattern used and
      [json.dumps]) on Python's own data: a [str] is a sequence of
      Unicode code points, a [bytes] a sequence of bytes;
    - [ToJson] and [ToJsonl] follow the two scripts statement by
      statement; an uncaught [ValueError] is a [Raise] result;
    - the theorems come after the definitions. *)

From Stdlib Require Import Strings.String Strings.Ascii Strings.Byte.
From Stdlib Require Import Bool NArith ZArith Lia List.
From Stdlib Require Import DecimalString.
Import ListNotations.

Local Open Scope string_scope.
Local Open Scope list_scope.
Local Open Scope N_scope.

(** ** Python values *)

Module Py.

(** A Python [str]: a sequence of Unicode code points. *)
Definition char := N.
Definition str := list char.

(** A [str] literal whose characters are all ASCII. *)
Definition lit (s : string) : str :=
  map N_of_ascii (list_ascii_of_string s).

Definition NL : char := 10.   (* '\n' *)
Definition CR : char := 13.   (* '\r' *)
Definition TAB : char := 9.   (* '\t' *)
Definition RS : char := 30.   (* '\x1e', record separator *)
Definition US : char := 31.   (* '\x1f', unit separator *)

Fixpoint str_eqb (a b : str) : bool :=
  match a, b with
  | [], [] => true
  | x :: a', y :: b' => (x =? y) && str_eqb a' b'
  | _, _ => false
  end.

(** Truth value of a [str]: the empty string is false. *)
Definition truthy (s : str) : bool :=
  match s with [] => false | _ :: _ => true end.

(** [c in s] for a one-character [c]. *)
Definition contains (c : char) (s : str) : bool := existsb (N.eqb c) s.

(** [s.startswith(p)]. *)
Fixpoint startswith (p s : str) : bool :=
  match p, s with
  | [], _ => true
  | x :: p', y :: s' => (x =? y) && startswith p' s'
  | _ :: _, [] => false
  end.

(** Exceptions the scripts can meet; none is caught anywhere. *)
Inductive exn := ValueError.

Inductive result (A : Type) : Type :=
| Ok (a : A)
| Raise (e : exn).
Arguments Ok {A} a.
Arguments Raise {A} e.

Definition bind {A B} (r : result A) (k : A -> result B) : result B :=
  match r with
  | Ok a => k a
  | Raise e => Raise e
  end.

Notation "x <- e ;; k" := (bind e (fun x => k))
  (at level 61, e at next level, right associativity).

(** *** [a, b, c, d, e, f = items] *)

(** The assignment of a list to six names needs six items exactly: with
    fewer ("not enough values to unpack") and with more ("too many values
    to unpack") it raises a [ValueError]. *)
Definition unpack6 (items : list str)
  : result (str * str * str * str * str * str) :=
  match items with
  | [a; b; c; d; e; f] => Ok (a, b, c, d, e, f)
  | _ => Raise ValueError
  end.

(** *** [str.split(sep)] and [str.split(sep, maxsplit)], one-character [sep] *)

(** Put [c] in front of the first piece. *)
Definition push (c : char) (pieces : list str) : list str :=
  match pieces with
  | [] => [[c]]
  | p :: ps => (c :: p) :: ps
  end.

Fixpoint split (sep : char) (s : str) : list str :=
  match s with
  | [] => [[]]
  | c :: t => if c =? sep then [] :: split sep t else push c (split sep t)
  end.

(** At most [maxsplit] cuts, from the left; the last piece keeps the
    separators that were not used. *)
Fixpoint split_max (sep : char) (s : str) (maxsplit : nat) {struct s}
  : list str :=
  match s with
  | [] => [[]]
  | c :: t =>
      match maxsplit with
      | O => [s]
      | S m =>
          if c =? sep then [] :: split_max sep t m
          else push c (split_max sep t maxsplit)
      end
  end.

(** [sep.join(pieces)]. *)
Fixpoint join (sep : str) (pieces : list str) : str :=
  match pieces with
  | [] => []
  | [p] => p
  | p :: ps => p ++ sep ++ join sep ps
  end.

(** *** [str.strip()] and [str.lstrip(chars)] *)

(** [str.isspace] on one character (Py_UNICODE_ISSPACE). The characters
    0x1C to 0x1F, the two separators among them, are white space. *)
Definition isspace (c : char) : bool :=
  ((9 <=? c) && (c <=? 13)) || ((28 <=? c) && (c <=? 32))
  || (c =? 0x85) || (c =? 0xA0) || (c =? 0x1680)
  || ((0x2000 <=? c) && (c <=? 0x200A))
  || (c =? 0x2028) || (c =? 0x2029) || (c =? 0x202F)
  || (c =? 0x205F) || (c =? 0x3000).

Fixpoint lstrip_by (p : char -> bool) (s : str) : str :=
  match s with
  | [] => []
  | c :: t => if p c then lstrip_by p t else s
  end.

Definition rstrip_by (p : char -> bool) (s : str) : str :=
  rev (lstrip_by p (rev s)).

Definition strip (s : str) : str := rstrip_by isspace (lstrip_by isspace s).

(** [s.lstrip(chars)]: drops every leading character that occurs in
    [chars]. *)
Definition lstrip (chars s : str) : str :=
  lstrip_by (fun c => contains c chars) s.

(** *** [str.splitlines()] *)

(** The line boundaries of [str.splitlines]. *)
Definition is_linebreak (c : char) : bool :=
  ((10 <=? c) && (c <=? 13)) || ((28 <=? c) && (c <=? 30))
  || (c =? 0x85) || (c =? 0x2028) || (c =? 0x2029).

(** No line is reported after a final line break, and "\r\n" is one
    break. *)
Fixpoint splitlines (s : str) : list str :=
  match s with
  | [] => []
  | c :: t =>
      if is_linebreak c then
        [] :: (if c =? CR
               then match t with
                    | c' :: t' => if c' =? NL then splitlines t'
                                  else splitlines t
                    | [] => splitlines t
                    end
               else splitlines t)
      else push c (splitlines t)
  end.

(** *** [int(s)], base 10 *)

(** The code points of the digit zero of every run of ten decimal digits
    (general category Nd) of the Unicode database of CPython 3.11,
    Unicode 14.0; the digit of value [d] of a run is at [zero + d]. *)
Definition decimal_zeros : list char :=
  [ 0x30; 0x660; 0x6F0; 0x7C0; 0x966; 0x9E6; 0xA66; 0xAE6; 0xB66; 0xBE6;
    0xC66; 0xCE6; 0xD66; 0xDE6; 0xE50; 0xED0; 0xF20; 0x1040; 0x1090;
    0x17E0; 0x1810; 0x1946; 0x19D0; 0x1A80; 0x1A90; 0x1B50; 0x1BB0;
    0x1C40; 0x1C50; 0xA620; 0xA8D0; 0xA900; 0xA9D0; 0xA9F0; 0xAA50;
    0xABF0; 0xFF10; 0x104A0; 0x10D30; 0x11066; 0x110F0; 0x11136; 0x111D0;
    0x112F0; 0x11450; 0x114D0; 0x11650; 0x116C0; 0x11730; 0x118E0;
    0x11950; 0x11C50; 0x11D50; 0x11DA0; 0x16A60; 0x16AC0; 0x16B50;
    0x1D7CE; 0x1D7D8; 0x1D7E2; 0x1D7EC; 0x1D7F6; 0x1E140; 0x1E2F0;
    0x1E950; 0x1FBF0 ].

(** Py_UNICODE_TODECIMAL: the value of a decimal digit, if [c] is one. *)
Fixpoint decimal_in (zeros : list char) (c : char) : option N :=
  match zeros with
  | [] => None
  | z :: zs => if (z <=? c) && (c <? z + 10) then Some (c - z)
               else decimal_in zs c
  end.

Definition to_decimal (c : char) : option N := decimal_in decimal_zeros c.

(** _PyUnicode_TransformDecimalAndSpaceToASCII: characters below 127 are
    kept, other white space becomes a blank, other decimal digits become
    ASCII digits, and the first character that is none of these becomes
    '?' and ends the buffer. *)
Fixpoint transform_decimal_and_space (s : str) : str :=
  match s with
  | [] => []
  | c :: t =>
      if c <? 127 then c :: transform_decimal_and_space t
      else if isspace c then 32 :: transform_decimal_and_space t
      else match to_decimal c with
           | Some d => (48 + d) :: transform_decimal_and_space t
           | None => [63]
           end
  end.

(** Py_ISSPACE, the white space of the C parser: ASCII only, and without
    0x1C to 0x1F. *)
Definition c_isspace (c : char) : bool :=
  ((9 <=? c) && (c <=? 13)) || (c =? 32).

Definition is_ascii_digit (c : char) : bool := (48 <=? c) && (c <=? 57).

(** The digit loop of PyLong_FromString: digits and single underscores.
    [prev] is the character read last (0 at the start), [acc] the value
    and [digits] the number of digits so far. The loop fails on a doubled
    underscore and, at its end, on a trailing one; otherwise it returns
    the value, the number of digits and the unread rest. *)
Fixpoint scan_digits (s : str) (prev : char) (acc digits : N)
  : option (N * N * str) :=
  match s with
  | c :: t =>
      if is_ascii_digit c then scan_digits t c (10 * acc + (c - 48)) (digits + 1)
      else if c =? 95 then
        if prev =? 95 then None else scan_digits t c acc digits
      else if prev =? 95 then None else Some (acc, digits, s)
  | [] => if prev =? 95 then None else Some (acc, digits, s)
  end.

(** sys.get_int_max_str_digits(), at its default; neither script changes
    it. The limit applies above 640 digits only
    (_PY_LONG_MAX_STR_DIGITS_THRESHOLD). *)
Definition int_max_str_digits : N := 4300.
Definition max_str_digits_threshold : N := 640.

(** [b] begins with the character [x]. *)
Definition first_is (x : char) (b : str) : bool :=
  match b with
  | c :: _ => c =? x
  | [] => false
  end.

(** PyLong_FromString on the transformed buffer: white space, a sign, no
    leading underscore, the digits, white space, and then the end of the
    buffer. *)
Definition long_from_string (b : str) : option Z :=
  let b := lstrip_by c_isspace b in
  let negative := first_is 45 b in
  let b := if first_is 43 b || first_is 45 b then tl b else b in
  if first_is 95 b then None
  else
    match scan_digits b 0 0 0 with
    | None => None
    | Some (v, digits, rest) =>
        if digits =? 0 then None
        else if (max_str_digits_threshold <? digits)
                && (0 <? int_max_str_digits)
                && (int_max_str_digits <? digits)
        then None
        else match lstrip_by c_isspace rest with
             | [] => Some (if negative then (- Z.of_N v)%Z else Z.of_N v)
             | _ :: _ => None
             end
    end.

(** [int(s)] for a [str] argument; every failure is a [ValueError]. *)
Definition int (s : str) : result Z :=
  match long_from_string (transform_decimal_and_space s) with
  | Some z => Ok z
  | None => Raise ValueError
  end.

(** *** [bytes.decode('utf-8', errors='replace')] *)

Definition REPLACEMENT : char := 0xFFFD.

Definition is_continuation (b : N) : bool := (0x80 <=? b) && (b <? 0xC0).

(** The second byte of a three-byte sequence: not an overlong form after
    0xE0, not a surrogate after 0xED. *)
Definition second_of_3 (b b2 : N) : bool :=
  is_continuation b2
  && negb (if b2 <? 0xA0 then b =? 0xE0 else b =? 0xED).

(** The second byte of a four-byte sequence: not an overlong form after
    0xF0, not above U+10FFFF after 0xF4. *)
Definition second_of_4 (b b2 : N) : bool :=
  is_continuation b2
  && negb (if b2 <? 0x90 then b =? 0xF0 else b =? 0xF4).

(** The decoder on byte values. An invalid start byte is replaced by
    itself alone; a sequence broken by a byte that cannot continue it is
    replaced up to that byte, which is read again; a sequence cut by the
    end of the input is replaced as a whole. Each replacement is one
    U+FFFD. *)
Fixpoint decode_utf8 (bs : list N) : str :=
  match bs with
  | [] => []
  | b :: r1 =>
      if b <? 0x80 then b :: decode_utf8 r1
      else if b <? 0xC2 then REPLACEMENT :: decode_utf8 r1
      else if b <? 0xE0 then
        match r1 with
        | [] => [REPLACEMENT]
        | b2 :: r2 =>
            if is_continuation b2
            then ((b - 0xC0) * 64 + (b2 - 0x80)) :: decode_utf8 r2
            else REPLACEMENT :: decode_utf8 r1
        end
      else if b <? 0xF0 then
        match r1 with
        | [] => [REPLACEMENT]
        | b2 :: r2 =>
            if second_of_3 b b2 then
              match r2 with
              | [] => [REPLACEMENT]
              | b3 :: r3 =>
                  if is_continuation b3
                  then ((b - 0xE0) * 4096 + (b2 - 0x80) * 64 + (b3 - 0x80))
                         :: decode_utf8 r3
                  else REPLACEMENT :: decode_utf8 r2
              end
            else REPLACEMENT :: decode_utf8 r1
        end
      else if b <? 0xF5 then
        match r1 with
        | [] => [REPLACEMENT]
        | b2 :: r2 =>
            if second_of_4 b b2 then
              match r2 with
              | [] => [REPLACEMENT]
              | b3 :: r3 =>
                  if is_continuation b3 then
                    match r3 with
                    | [] => [REPLACEMENT]
                    | b4 :: r4 =>
                        if is_continuation b4
                        then ((b - 0xF0) * 262144 + (b2 - 0x80) * 4096
                              + (b3 - 0x80) * 64 + (b4 - 0x80))
                               :: decode_utf8 r4
                        else REPLACEMENT :: decode_utf8 r3
                    end
                  else REPLACEMENT :: decode_utf8 r2
              end
            else REPLACEMENT :: decode_utf8 r1
        end
      else REPLACEMENT :: decode_utf8 r1
  end.

Definition bytes := list byte.

Definition decode (raw : bytes) : str := decode_utf8 (map Byte.to_N raw).

(** *** [len([1 for _ in re.finditer(r'(?m)^literal', s)])] *)

(** The number of matches of a non-empty literal anchored by [^] in
    MULTILINE mode. The scan goes left to right; a match may start at a
    position that is the start of the string or follows a '\n'
    ([bol]), and the scan resumes behind a match ([skip] counts the
    characters of the match still to pass). *)
Fixpoint finditer_count (literal : str) (bol : bool) (skip : nat) (s : str)
  : nat :=
  match s with
  | [] => O
  | c :: t =>
      match skip with
      | S k => finditer_count literal (c =? NL) k t
      | O =>
          if bol && startswith literal s
          then S (finditer_count literal (c =? NL) (length literal - 1) t)
          else finditer_count literal (c =? NL) O t
      end
  end.

(** *** [json.dumps(obj, ensure_ascii=False)] *)

(** The Python values the scripts build: strings, integers, lists, and
    dictionaries with string keys, which keep the order of insertion. *)
#[local] Unset Elimination Schemes.
Inductive value : Type :=
| VStr (s : str)
| VInt (z : Z)
| VList (items : list value)
| VDict (items : list (str * value)).
#[local] Set Elimination Schemes.

(** Induction on a value, with the hypothesis for every item of a list
    and every value of a dictionary. *)
Fixpoint value_induction (P : value -> Prop)
  (HStr : forall s, P (VStr s))
  (HInt : forall z, P (VInt z))
  (HList : forall items, Forall P items -> P (VList items))
  (HDict : forall items, Forall (fun kv => P (snd kv)) items ->
                         P (VDict items))
  (v : value) {struct v} : P v :=
  match v with
  | VStr s => HStr s
  | VInt z => HInt z
  | VList items =>
      HList items
        ((fix all (l : list value) : Forall P l :=
            match l with
            | [] => Forall_nil P
            | x :: r =>
                Forall_cons x (value_induction P HStr HInt HList HDict x)
                  (all r)
            end) items)
  | VDict items =>
      HDict items
        ((fix all (l : list (str * value))
            : Forall (fun kv => P (snd kv)) l :=
            match l with
            | [] => Forall_nil _
            | kv :: r =>
                Forall_cons kv
                  (value_induction P HStr HInt HList HDict (snd kv))
                  (all r)
            end) items)
  end.

(** [d.keys()], in order. *)
Definition keys (items : list (str * value)) : list str := map fst items.

(** [d.get(k)]. *)
Fixpoint get (k : str) (items : list (str * value)) : option value :=
  match items with
  | [] => None
  | (k', v) :: rest => if str_eqb k k' then Some v else get k rest
  end.

Definition hex_digit (n : N) : char :=
  if n <? 10 then 48 + n else 97 + (n - 10).

(** ESCAPE_DCT of json.encoder: the short escapes, [\u00xx] for the other
    control characters, everything else as it is. *)
Definition escape_char (c : char) : str :=
  if c =? 34 then [92; 34]
  else if c =? 92 then lit "\\"
  else if c =? 10 then lit "\n"
  else if c =? 13 then lit "\r"
  else if c =? 9 then lit "\t"
  else if c =? 8 then lit "\b"
  else if c =? 12 then lit "\f"
  else if c <? 32 then lit "\u00" ++ [hex_digit (c / 16); hex_digit (c mod 16)]
  else [c].

Definition encode_basestring (s : str) : str :=
  [34] ++ flat_map escape_char s ++ [34].

(** [repr] of an integer, in decimal. *)
Definition int_repr (z : Z) : str := lit (NilZero.string_of_int (Z.to_int z)).

(** The compact form: items separated by ", ", keys from values by ": ". *)
Fixpoint dumps (v : value) : str :=
  match v with
  | VStr s => encode_basestring s
  | VInt z => int_repr z
  | VList items => lit "[" ++ join (lit ", ") (map dumps items) ++ lit "]"
  | VDict items =>
      lit "{"
      ++ join (lit ", ")
           (map (fun kv => match kv with
                           | (k, x) => encode_basestring k ++ lit ": " ++ dumps x
                           end) items)
      ++ lit "}"
  end.

(** *** [open(path, 'w', encoding='utf-8')]: the bytes of the text written *)

(** A Unicode scalar value: a code point that is not a surrogate. *)
Definition is_scalar (c : char) : bool :=
  (c <? 0xD800) || ((0xE000 <=? c) && (c <? 0x110000)).

(** The UTF-8 form of one character. A surrogate cannot be encoded
    (UnicodeEncodeError, which is a ValueError); a number from 0x110000
    on is the code point of no character. *)
Definition encode_char (c : char) : result (list N) :=
  if c <? 0x80 then Ok [c]
  else if c <? 0x800 then Ok [0xC0 + c / 64; 0x80 + c mod 64]
  else if c <? 0x10000 then
    if (0xD800 <=? c) && (c <? 0xE000) then Raise ValueError
    else Ok [0xE0 + c / 4096; 0x80 + (c / 64) mod 64; 0x80 + c mod 64]
  else if c <? 0x110000 then
    Ok [0xF0 + c / 262144; 0x80 + (c / 4096) mod 64;
        0x80 + (c / 64) mod 64; 0x80 + c mod 64]
  else Raise ValueError.

Fixpoint encode_utf8 (s : str) : result (list N) :=
  match s with
  | [] => Ok []
  | c :: t =>
      bs <- encode_char c ;;
      rest <- encode_utf8 t ;;
      Ok (bs ++ rest)
  end.

Definition byte_of (n : N) : byte :=
  match Byte.of_N n with
  | Some b => b
  | None => x00
  end.

(** [s.encode('utf-8')], as the text layer of a file opened for writing
    applies it where the line separator is '\n'. *)
Definition encode (s : str) : result bytes :=
  bs <- encode_utf8 s ;;
  Ok (map byte_of bs).

End Py.

(** ** [to_json.py]: commits with their change statistics *)

Module ToJson.
Import Py.

(** [records = [r for r in data.split('\x1e') if r.strip()]] *)
Definition records (data : str) : list str :=
  filter (fun r => truthy (strip r)) (split RS data).

(** [0 if col == '-' else int(col)] *)
Definition count (col : str) : result Z :=
  if str_eqb col (lit "-") then Ok 0%Z else int col.

(** The two [if]s of the statistics loop: a tab in the line, at least
    three columns, and a first and a second column that are not blank. *)
Definition accepted (line : str) : bool :=
  contains TAB line
  && (let cols := split TAB line in
      (3 <=? length cols)%nat
      && truthy (strip (nth 0 cols []))
      && truthy (strip (nth 1 cols []))).

Definition file_change_dict (path : str) (added deleted : Z) : value :=
  VDict [ (lit "path", VStr path);
          (lit "added", VInt added);
          (lit "deleted", VInt deleted) ].

(** The body of [for line in body_plus.splitlines()]: the dictionary
    appended to [files], if the line is accepted. [int] may raise. *)
Definition file_change (line : str) : result (option value) :=
  if accepted line then
    let cols := split TAB line in
    let add := nth 0 cols [] in
    let delete := nth 1 cols [] in
    let path := join [TAB] (skipn 2 cols) in
    added <- count add ;;
    deleted <- count delete ;;
    Ok (Some (file_change_dict path added deleted))
  else Ok None.

(** The statistics loop, [files] being the list built so far. *)
Fixpoint stat_lines (lines : list str) (files : list value)
  : result (list value) :=
  match lines with
  | [] => Ok files
  | line :: rest =>
      fc <- file_change line ;;
      stat_lines rest (match fc with
                       | Some d => files ++ [d]
                       | None => files
                       end)
  end.

(** [header, *rest = rec.split('\n', 1)] and
    [body_plus = rest[0] if rest else ''] *)
Definition header (rec : str) : str := hd [] (split_max NL rec 1).
Definition body_plus (rec : str) : str :=
  match tl (split_max NL rec 1) with
  | r0 :: _ => r0
  | [] => []
  end.

(** [(parts + ['']*6)[:6]] *)
Definition pad6 (parts : list str) : list str :=
  firstn 6 (parts ++ repeat [] 6).

(** The dictionary of a commit whose header fields are the items 0 to 5
    of [fields], an item that the list does not have being empty; the
    form in which the results of [commit] are written down. *)
Definition commit_dict (fields : list str) (files : list value) : value :=
  VDict [ (lit "sha", VStr (nth 0 fields []));
          (lit "date", VStr (nth 1 fields []));
          (lit "author", VStr (nth 2 fields []));
          (lit "email", VStr (nth 3 fields []));
          (lit "subject", VStr (nth 4 fields []));
          (lit "body", VStr (strip (nth 5 fields [])));
          (lit "files", VList files) ].

(** The body of [for rec in records]: the six names are unpacked from
    the padded and cut list of header fields, which raises unless the
    list has six items; then the statistics are read and the dictionary
    is appended to [commits]. *)
Definition commit (rec : str) : result value :=
  let parts := split US (header rec) in
  names <- unpack6 (pad6 parts) ;;
  let '(sha, date, author, email, subject, body) := names in
  files <- stat_lines (splitlines (body_plus rec)) [] ;;
  Ok (VDict [ (lit "sha", VStr sha);
              (lit "date", VStr date);
              (lit "author", VStr author);
              (lit "email", VStr email);
              (lit "subject", VStr subject);
              (lit "body", VStr (strip body));
              (lit "files", VList files) ]).

(** The loop over the records, [commits] being the list built so far. *)
Fixpoint run (recs : list str) (commits : list value)
  : result (list value) :=
  match recs with
  | [] => Ok commits
  | rec :: rest =>
      c <- commit rec ;;
      run rest (commits ++ [c])
  end.

(** The script on the content of [repo.log]: the array that [json.dump]
    writes to [changes.json], or the exception that ends the run before
    anything is written. *)
Definition main (raw : bytes) : result value :=
  let data := decode raw in
  commits <- run (records data) [] ;;
  Ok (VList commits).

(** [print(f'Wrote {len(commits)} commits to changes.json')] *)
Definition report (commits : list value) : str :=
  lit "Wrote " ++ int_repr (Z.of_nat (length commits))
  ++ lit " commits to changes.json" ++ [NL].

(** What the script prints: the report, after the array is written, or
    nothing when the run ends with an exception. *)
Definition stdout (raw : bytes) : result str :=
  let data := decode raw in
  commits <- run (records data) [] ;;
  Ok (report commits).

End ToJson.

(** ** [to_jsonl.py]: commits with their patches *)

Module ToJsonl.
Import Py.

(** [records = [r for r in data.split('\x1e') if r.strip()]] *)
Definition records (data : str) : list str :=
  filter (fun r => truthy (strip r)) (split RS data).

(** [(parts + ['']*6)[:6]] *)
Definition pad6 (parts : list str) : list str :=
  firstn 6 (parts ++ repeat [] 6).

(** [parts[6] if len(parts) > 6 else ''] *)
Definition seventh (parts : list str) : str :=
  if (6 <? length parts)%nat then nth 6 parts [] else [].

(** The literal of the pattern [(?m)^diff --git ]. *)
Definition MARKER : str := lit "diff --git ".

(** [parse_record(rec)]: the split with at most six cuts, the six names
    unpacked from the padded and cut list, the patch without its leading
    newlines, the number of matches of the pattern in the patch, and the
    dictionary returned. The unpacking raises unless the list has six
    items; the function returns nothing then, and the empty dictionary
    stands for that. *)
Definition parse_record (rec : str) : value :=
  let parts := split_max US rec 6 in
  match unpack6 (pad6 parts) with
  | Ok (sha, date, author, email, subject, body) =>
      let patch := seventh parts in
      let patch := lstrip [NL] patch in
      let file_diffs := finditer_count MARKER true 0 patch in
      VDict [ (lit "sha", VStr sha);
              (lit "date", VStr date);
              (lit "author", VStr author);
              (lit "email", VStr email);
              (lit "subject", VStr subject);
              (lit "body", VStr (strip body));
              (lit "file_diffs", VInt (Z.of_nat file_diffs));
              (lit "patch", VStr patch) ]
  | Raise _ => VDict []
  end.

(** [w.write(s)] on the text written so far. *)
Definition write (w s : str) : str := w ++ s.

(** The loop over the records: one [json.dumps] and one newline each. *)
Fixpoint run (recs : list str) (w : str) : str :=
  match recs with
  | [] => w
  | rec :: rest =>
      let obj := parse_record rec in
      let w := write w (dumps obj) in
      let w := write w [NL] in
      run rest w
  end.

(** The script on the content of [repo_with_diffs.log]: the text of
    [commits_with_diffs.jsonl]. *)
Definition main (raw : bytes) : str :=
  let data := decode raw in
  run (records data) [].

Definition OUT : str := lit "commits_with_diffs.jsonl".

(** [print(f'Wrote {len(records)} commits to {OUT}')] *)
Definition report (recs : list str) : str :=
  lit "Wrote " ++ int_repr (Z.of_nat (length recs))
  ++ lit " commits to " ++ OUT ++ [NL].

(** What the script prints. *)
Definition stdout (raw : bytes) : str :=
  let data := decode raw in
  report (records data).

(** The bytes of [commits_with_diffs.jsonl]: the file is opened with
    [encoding='utf-8']. *)
Definition file_bytes (raw : bytes) : result bytes := encode (main raw).

End ToJsonl.

(** ** The vocabulary of the specification *)

Module Spec.
Import Py.

(** The value stored under the key [k] of a record. *)
Definition lookup (k : string) (v : value) : option value :=
  match v with
  | VDict items => get (lit k) items
  | _ => None
  end.

Definition record_keys (v : value) : list str :=
  match v with
  | VDict items => keys items
  | _ => []
  end.

(** The six header fields, in order. *)
Definition header_keys : list string :=
  ["sha"; "date"; "author"; "email"; "subject"; "body"]%string.

Definition keys_A : list str := map lit (header_keys ++ ["files"%string]).
Definition keys_B : list str :=
  map lit (header_keys ++ ["file_diffs"; "patch"]%string).

(** The six names that the header of a record is to give: its first six
    segments, and the empty string for a segment that it does not have. *)
Definition six_names (parts : list str)
  : str * str * str * str * str * str :=
  (nth 0 parts [], nth 1 parts [], nth 2 parts [],
   nth 3 parts [], nth 4 parts [], nth 5 parts []).

(** The bytes of a text whose characters are all below 256, for writing
    down inputs. *)
Definition to_bytes (s : str) : bytes :=
  map (fun c => match Byte.of_N c with Some b => b | None => x00 end) s.

(** "Lines in [patch] that begin with the literal marker text": the lines
    are the pieces between newlines. *)
Definition marked_lines (patch : str) : nat :=
  length (filter (startswith ToJsonl.MARKER) (split NL patch)).

(** The marked lines of a text of which the first line counts only when
    [bol] holds. *)
Definition marked_from (bol : bool) (s : str) : nat :=
  (if bol && startswith ToJsonl.MARKER (hd [] (split NL s)) then 1 else 0)%nat
  + length (filter (startswith ToJsonl.MARKER) (tl (split NL s))).

(** "Exactly one leading newline (if present) is stripped". *)
Definition strip_one_newline (s : str) : str :=
  match s with
  | c :: t => if c =? NL then t else s
  | [] => []
  end.

(** A decimal integer as [git log --numstat] prints it: a non-empty run
    of the digits 0 to 9. *)
Definition is_decimal (s : str) : bool :=
  truthy s && forallb is_ascii_digit s.

(** "Decimal integers or the literal -". *)
Definition decimal_or_dash (col : str) : bool :=
  str_eqb col (lit "-") || is_decimal col.

(** The input format of variant A, as far as the counts go: the first two
    columns of every accepted statistics line are decimal integers or
    "-". *)
Definition line_in_format (line : str) : bool :=
  implb (ToJson.accepted line)
        (decimal_or_dash (nth 0 (split TAB line) [])
         && decimal_or_dash (nth 1 (split TAB line) [])).

Definition record_in_format (rec : str) : bool :=
  forallb line_in_format (splitlines (ToJson.body_plus rec)).

Definition input_in_format (raw : bytes) : bool :=
  forallb record_in_format (ToJson.records (decode raw)).

(** The counts of the line are short enough for [int] at its default
    limit of digits. *)
Definition counts_within_limit (line : str) : bool :=
  (N.of_nat (length (nth 0 (split TAB line) [])) <=? int_max_str_digits)
  && (N.of_nat (length (nth 1 (split TAB line) [])) <=? int_max_str_digits).

Definition record_within_limit (rec : str) : bool :=
  forallb counts_within_limit (splitlines (ToJson.body_plus rec)).

Definition input_within_limit (raw : bytes) : bool :=
  forallb record_within_limit (ToJson.records (decode raw)).

(** A FileChange entry whose two counts are not negative. *)
Definition counts_nonnegative (fc : value) : Prop :=
  exists path added deleted,
    fc = ToJson.file_change_dict path added deleted
    /\ (0 <= added)%Z /\ (0 <= deleted)%Z.

(** A commit of variant A all of whose FileChange entries have counts
    that are not negative. *)
Definition commit_counts_nonnegative (c : value) : Prop :=
  exists fields files,
    c = ToJson.commit_dict fields files /\ Forall counts_nonnegative files.

(** Both counts of a line can be read: each is "-" or a text that
    [int] accepts. *)
Definition counts_readable (line : str) : bool :=
  match ToJson.count (nth 0 (split TAB line) []),
        ToJson.count (nth 1 (split TAB line) []) with
  | Ok _, Ok _ => true
  | _, _ => false
  end.

(** No accepted statistics line of the record has a count that cannot be
    read. *)
Definition line_parses (line : str) : bool :=
  implb (ToJson.accepted line) (counts_readable line).

Definition record_parses (rec : str) : bool :=
  forallb line_parses (splitlines (ToJson.body_plus rec)).

(** The number of lines of a text file: its newline characters. *)
Definition line_count (text : str) : nat := count_occ N.eq_dec text NL.

(** A character that is not a control character. *)
Definition printable (c : char) : Prop := 32 <= c.

(** A reader of the escapes of [encode_basestring], to show that the
    writer loses nothing: the value of a hexadecimal digit, the character
    of a short escape, and the text between the quotes read back. *)
Definition hex_value (h : char) : N :=
  if h <? 58 then h - 48 else h - 87.

Definition short_escape (e : char) : char :=
  if e =? 110 then 10
  else if e =? 114 then 13
  else if e =? 116 then 9
  else if e =? 98 then 8
  else if e =? 102 then 12
  else e.

Fixpoint unescape (s : str) : str :=
  match s with
  | [] => []
  | c :: t =>
      if c =? 92 then
        match t with
        | [] => []
        | e :: t' =>
            if e =? 117 then
              match t' with
              | _ :: _ :: h3 :: h4 :: t'' =>
                  (16 * hex_value h3 + hex_value h4) :: unescape t''
              | _ => []
              end
            else short_escape e :: unescape t'
        end
      else c :: unescape t
  end.

End Spec.

Import Py.
Import Spec.

(** * Facts about the builtins *)

Section StrFacts.



Lemma contains_false_iff (c : char) (s : str) :
  contains c s = false <-> ~ In c s.
Proof.
  unfold contains. induction s as [|x s IH]; simpl.
  - tauto.
  - rewrite orb_false_iff, IH, N.eqb_neq. intuition congruence.
Qed.

Lemma contains_app (c : char) (a b : str) :
  contains c (a ++ b) = contains c a || contains c b.
Proof. unfold contains. apply existsb_app. Qed.

(** A string that starts with [p] is [p] followed by something. *)
Lemma startswith_app (p s : str) :
  startswith p s = true <-> exists t, s = p ++ t.
Proof.
  revert s; induction p as [|x p IH]; intros s; simpl.
  - split; [eexists; reflexivity | reflexivity].
  - destruct s as [|y s].
    + split; [discriminate | intros [t Ht]; discriminate].
    + rewrite andb_true_iff, N.eqb_eq, IH. split.
      * intros [-> [t ->]]. now exists t.
      * intros [t Ht]. injection Ht as -> ->. split; [reflexivity | now exists t].
Qed.

End StrFacts.

Section SplitFacts.

Variable sep : char.

Lemma split_not_nil (s : str) : split sep s <> [].
Proof.
  destruct s as [|c t]; simpl; [discriminate|].
  destruct (c =? sep); [discriminate|].
  destruct (split sep t); discriminate.
Qed.

Lemma split_max_not_nil (s : str) (m : nat) : split_max sep s m <> [].
Proof.
  revert m; induction s as [|c t IH]; intros m; simpl; [discriminate|].
  destruct m; [discriminate|].
  destruct (c =? sep); [discriminate|].
  destruct (split_max sep t (S m)); discriminate.
Qed.


Lemma split_max_no_sep (s : str) (m : nat) :
  contains sep s = false -> split_max sep s m = [s].
Proof.
  unfold contains.
  induction s as [|c t IH]; simpl; [reflexivity|].
  intros H. apply orb_false_iff in H as [Hc Ht].
  destruct m; [reflexivity|].
  rewrite N.eqb_sym, Hc, (IH Ht). reflexivity.
Qed.

(** The first piece ends at the first separator. *)
Lemma split_first (f t : str) :
  contains sep f = false -> split sep (f ++ sep :: t) = f :: split sep t.
Proof.
  unfold contains.
  induction f as [|c f IH]; simpl; intros H.
  - now rewrite N.eqb_refl.
  - apply orb_false_iff in H as [Hc Hf].
    rewrite N.eqb_sym, Hc, (IH Hf). reflexivity.
Qed.

Lemma split_max_first (f t : str) (m : nat) :
  contains sep f = false ->
  split_max sep (f ++ sep :: t) (S m) = f :: split_max sep t m.
Proof.
  unfold contains.
  induction f as [|c f IH]; simpl; intros H.
  - now rewrite N.eqb_refl.
  - apply orb_false_iff in H as [Hc Hf].
    rewrite N.eqb_sym, Hc, (IH Hf). reflexivity.
Qed.

(** No cut is left: the rest is one piece, separators included. *)
Lemma split_max_0 (s : str) : split_max sep s 0 = [s].
Proof. destruct s; reflexivity. Qed.


(** No piece of [split] holds the separator. *)
Lemma split_pieces_no_sep (s : str) :
  Forall (fun p => contains sep p = false) (split sep s).
Proof.
  induction s as [|c t IH]; simpl.
  - constructor; [reflexivity | constructor].
  - destruct (c =? sep) eqn:E.
    + constructor; [reflexivity | exact IH].
    + destruct (split sep t) as [|p ps]; simpl.
      * constructor; [|constructor]. simpl. now rewrite N.eqb_sym, E.
      * inversion IH as [|? ? Hp Hps]; subst.
        constructor; [|exact Hps]. simpl. now rewrite N.eqb_sym, E, Hp.
Qed.

End SplitFacts.

Section PadFacts.

(** Padding and cutting to six leaves the first six places as they are;
    a place that [parts] does not have reads as the empty string. *)
Lemma pad6_nth (parts : list str) (k : nat) :
  (k < 6)%nat -> nth k (firstn 6 (parts ++ repeat [] 6)) [] = nth k parts [].
Proof.
  intros Hk.
  assert (Hlen : (6 <= length (parts ++ repeat [] 6))%nat)
    by (rewrite length_app, repeat_length; lia).
  assert (H1 : nth k (firstn 6 (parts ++ repeat [] 6)) []
               = nth k (parts ++ repeat [] 6) []).
  { rewrite <- (firstn_skipn 6 (parts ++ repeat [] 6)) at 2.
    rewrite app_nth1; [reflexivity|].
    rewrite length_firstn. lia. }
  rewrite H1.
  destruct (Nat.lt_ge_cases k (length parts)) as [Hlt | Hge].
  - now rewrite app_nth1.
  - rewrite app_nth2 by exact Hge.
    rewrite (nth_overflow parts) by exact Hge.
    apply nth_repeat.
Qed.

Lemma pad6_missing (parts : list str) (k : nat) :
  (length parts <= k)%nat -> nth k (firstn 6 (parts ++ repeat [] 6)) [] = [].
Proof.
  intros Hge.
  destruct (Nat.lt_ge_cases k 6) as [Hlt | H6].
  - rewrite pad6_nth by exact Hlt. now apply nth_overflow.
  - apply nth_overflow. rewrite length_firstn. lia.
Qed.

(** With six parts or more, padding adds nothing. *)
Lemma pad6_long (parts : list str) :
  (6 <= length parts)%nat -> firstn 6 (parts ++ repeat [] 6) = firstn 6 parts.
Proof.
  intros H. rewrite firstn_app.
  replace (6 - length parts)%nat with 0%nat by lia.
  simpl. apply app_nil_r.
Qed.

Lemma length_pad6 (parts : list str) :
  length (firstn 6 (parts ++ repeat [] 6)) = 6%nat.
Proof.
  rewrite length_firstn, length_app, repeat_length. lia.
Qed.

(** The padded and cut list has six items, so the six names can be
    unpacked from it: the unpacking does not raise. *)
Lemma unpack6_pad6 (parts : list str) :
  let fields := firstn 6 (parts ++ repeat [] 6) in
  unpack6 fields
  = Ok (nth 0 fields [], nth 1 fields [], nth 2 fields [],
        nth 3 fields [], nth 4 fields [], nth 5 fields []).
Proof.
  intros fields. pose proof (length_pad6 parts) as L. fold fields in L.
  destruct fields as [|a [|b [|c [|d [|e [|f [|g r]]]]]]];
    try discriminate. reflexivity.
Qed.

End PadFacts.

Section StripFacts.

Lemma lstrip_newline_cons (c : char) (t : str) :
  lstrip [NL] (c :: t) = if c =? NL then lstrip [NL] t else c :: t.
Proof.
  unfold lstrip. simpl. now rewrite orb_false_r.
Qed.

Lemma startswith_newline_cons (c : char) (t : str) :
  startswith [NL] (c :: t) = (c =? NL).
Proof.
  change (startswith [NL] (c :: t)) with ((NL =? c) && true).
  rewrite andb_true_r. apply N.eqb_sym.
Qed.

(** [lstrip] removes a run of newlines and nothing else. *)
Lemma lstrip_newlines (s : str) :
  exists k, s = repeat NL k ++ lstrip [NL] s.
Proof.
  induction s as [|c t IH].
  - now exists 0%nat.
  - rewrite lstrip_newline_cons. destruct (c =? NL) eqn:E.
    + destruct IH as [k Hk]. exists (S k). simpl.
      apply N.eqb_eq in E. subst c. now rewrite <- Hk.
    + now exists 0%nat.
Qed.

Lemma lstrip_newlines_head (s : str) : startswith [NL] (lstrip [NL] s) = false.
Proof.
  induction s as [|c t IH]; [reflexivity|].
  rewrite lstrip_newline_cons. destruct (c =? NL) eqn:E; [exact IH|].
  now rewrite startswith_newline_cons.
Qed.

Lemma lstrip_no_newline (s : str) :
  startswith [NL] s = false -> lstrip [NL] s = s.
Proof.
  destruct s as [|c t]; [reflexivity|].
  rewrite lstrip_newline_cons, startswith_newline_cons.
  now intros ->.
Qed.

End StripFacts.

(** * Variant B: the header and the patch *)

Section PatchMode.

Import ToJsonl.

(** The record that [parse_record] returns, field by field. *)
Lemma parse_record_fields (rec : str) :
  let parts := split_max US rec 6 in
  let patch := lstrip [NL] (seventh parts) in
  parse_record rec =
  VDict [ (lit "sha", VStr (nth 0 (pad6 parts) []));
          (lit "date", VStr (nth 1 (pad6 parts) []));
          (lit "author", VStr (nth 2 (pad6 parts) []));
          (lit "email", VStr (nth 3 (pad6 parts) []));
          (lit "subject", VStr (nth 4 (pad6 parts) []));
          (lit "body", VStr (strip (nth 5 (pad6 parts) [])));
          (lit "file_diffs",
           VInt (Z.of_nat (finditer_count MARKER true 0 patch)));
          (lit "patch", VStr patch) ].
Proof.
  unfold parse_record, pad6. cbv zeta.
  now rewrite (unpack6_pad6 (split_max US rec 6)).
Qed.

(** Six fields without the separator, then anything: seven pieces. *)
Lemma split_max_seven (f0 f1 f2 f3 f4 f5 tail : str) :
  Forall (fun f => contains US f = false) [f0; f1; f2; f3; f4; f5] ->
  split_max US (join [US] [f0; f1; f2; f3; f4; f5; tail]) 6
  = [f0; f1; f2; f3; f4; f5; tail].
Proof.
  intros H.
  repeat match goal with
         | H : Forall _ (_ :: _) |- _ => inversion H; subst; clear H
         end.
  simpl join.
  repeat (rewrite split_max_first by assumption).
  now rewrite split_max_0.
Qed.

(** C2. In variant B the record is cut at the first six unit separators
    only: for six fields without the separator followed by any text, the
    split yields exactly these seven segments, the first six are the
    fields sha, date, author, email, subject and body (the last one
    trimmed, as for every record), and the patch is the seventh segment
    onward with every 0x1F it holds: it is not cut again, and it differs
    from the segment by the newlines dropped at its start only, so that a
    segment that does not begin with a newline is the patch as it is. *)
Theorem patch_is_seventh_segment_onward (f0 f1 f2 f3 f4 f5 tail : str) :
  Forall (fun f => contains US f = false) [f0; f1; f2; f3; f4; f5] ->
  let rec := join [US] [f0; f1; f2; f3; f4; f5; tail] in
  split_max US rec 6 = [f0; f1; f2; f3; f4; f5; tail]
  /\ lookup "sha" (parse_record rec) = Some (VStr f0)
  /\ lookup "date" (parse_record rec) = Some (VStr f1)
  /\ lookup "author" (parse_record rec) = Some (VStr f2)
  /\ lookup "email" (parse_record rec) = Some (VStr f3)
  /\ lookup "subject" (parse_record rec) = Some (VStr f4)
  /\ lookup "body" (parse_record rec) = Some (VStr (strip f5))
  /\ lookup "patch" (parse_record rec) = Some (VStr (lstrip [NL] tail))
  /\ (exists k, tail = repeat NL k ++ lstrip [NL] tail)
  /\ (startswith [NL] tail = false ->
      lookup "patch" (parse_record rec) = Some (VStr tail)).
Proof.
  intros H rec.
  pose proof (split_max_seven f0 f1 f2 f3 f4 f5 tail H) as Hs.
  fold rec in Hs.
  split; [exact Hs|].
  rewrite parse_record_fields. cbv zeta. rewrite Hs.
  do 7 (split; [reflexivity|]).
  split; [apply lstrip_newlines|].
  intros Hnl. cbn [lookup]. unfold seventh. simpl nth. simpl length.
  cbn [Nat.ltb Nat.leb]. now rewrite (lstrip_no_newline tail Hnl).
Qed.

(** The example of the specification: a patch with an embedded 0x1F. *)
Lemma patch_is_seventh_segment_onward_witness :
  let tail := lit "diff --git a/x b/x" ++ [NL] ++ lit "@@..." ++ [US]
              ++ lit "inlinebyte" in
  lookup "patch"
    (parse_record
       (join [US] [lit "a1"; lit "d1"; lit "author"; lit "email";
                   lit "subj"; lit "body"; tail]))
  = Some (VStr tail).
Proof.
  intros tail.
  refine (proj2 (proj2 (proj2 (proj2 (proj2 (proj2 (proj2 (proj2 (proj2
    (patch_is_seventh_segment_onward
       (lit "a1") (lit "d1") (lit "author") (lit "email")
       (lit "subj") (lit "body") tail _))))))))) _).
  - repeat constructor.
  - reflexivity.
Defined.

(** C4, as it is worded, at a segment with two leading newlines: the
    patch is not the segment without its first newline. *)
Lemma single_newline_strip_counterexample :
  let rec := join [US] [lit "s"; lit "d"; lit "a"; lit "e"; lit "j";
                        lit "b"; [NL; NL] ++ lit "X"] in
  seventh (split_max US rec 6) = [NL; NL] ++ lit "X"
  /\ lookup "patch" (parse_record rec) = Some (VStr (lit "X"))
  /\ lookup "patch" (parse_record rec)
     <> Some (VStr (strip_one_newline (seventh (split_max US rec 6)))).
Proof.
  cbv zeta. split; [reflexivity|]. split; [reflexivity|].
  vm_compute. discriminate.
Qed.

(** C4, amended. In variant B the patch field is the seventh segment
    without all of its leading newlines: the segment is a run of newlines
    followed by the patch, the patch does not begin with a newline, and
    nothing else is changed. For a segment with at most one leading
    newline this is the segment without that newline. *)
Theorem leading_newlines_all_stripped (rec : str) :
  let seg := seventh (split_max US rec 6) in
  let patch := lstrip [NL] seg in
  lookup "patch" (parse_record rec) = Some (VStr patch)
  /\ (exists k, seg = repeat NL k ++ patch)
  /\ startswith [NL] patch = false
  /\ (startswith [NL; NL] seg = false -> patch = strip_one_newline seg).
Proof.
  intros seg patch. split; [now rewrite parse_record_fields|].
  split; [apply lstrip_newlines|].
  split; [apply lstrip_newlines_head|].
  intros H. subst patch. unfold strip_one_newline.
  destruct seg as [|c t]; [reflexivity|].
  rewrite lstrip_newline_cons.
  change (startswith [NL; NL] (c :: t))
    with ((NL =? c) && startswith [NL] t) in H.
  rewrite (N.eqb_sym NL c) in H.
  destruct (c =? NL); [|reflexivity].
  now apply lstrip_no_newline.
Qed.

Lemma leading_newlines_all_stripped_witness :
  lstrip [NL] (seventh (split_max US
     (join [US] [lit "s"; lit "d"; lit "a"; lit "e"; lit "j"; lit "b";
                 [NL] ++ lit "diff"]) 6))
  = lit "diff".
Proof.
  refine (eq_trans (proj2 (proj2 (proj2
    (leading_newlines_all_stripped
       (join [US] [lit "s"; lit "d"; lit "a"; lit "e"; lit "j"; lit "b";
                   [NL] ++ lit "diff"])))) _) _);
    reflexivity.
Defined.

End PatchMode.

(** * Variant B: counting the file diffs *)

Section FileDiffs.

Import ToJsonl.

Lemma split_cons (sep c : char) (t : str) :
  split sep (c :: t)
  = if c =? sep then [] :: split sep t else push c (split sep t).
Proof. reflexivity. Qed.

Lemma hd_push (c : char) (pieces : list str) :
  pieces <> [] -> hd [] (push c pieces) = c :: hd [] pieces.
Proof. destruct pieces; [congruence | reflexivity]. Qed.

Lemma tl_push (c : char) (pieces : list str) :
  pieces <> [] -> tl (push c pieces) = tl pieces.
Proof. destruct pieces; [congruence | reflexivity]. Qed.

(** A literal without a newline starts a text exactly when it starts the
    first line of the text. *)
Lemma startswith_first_line (p s : str) :
  contains NL p = false ->
  startswith p (hd [] (split NL s)) = startswith p s.
Proof.
  revert p; induction s as [|c t IH]; intros p Hp; [reflexivity|].
  rewrite split_cons.
  destruct p as [|x p']; [now destruct (c =? NL), (split NL t)|].
  change (contains NL (x :: p')) with ((NL =? x) || contains NL p') in Hp.
  apply orb_false_iff in Hp as [Hx Hp'].
  destruct (N.eqb_spec c NL) as [-> | Hc].
  - cbn [hd startswith]. now rewrite N.eqb_sym, Hx.
  - rewrite hd_push by apply split_not_nil.
    cbn [startswith]. now rewrite IH.
Qed.

Lemma marked_from_true (s : str) : marked_from true s = marked_lines s.
Proof.
  unfold marked_from, marked_lines.
  pose proof (split_not_nil NL s) as Hne.
  destruct (split NL s) as [|h r]; [congruence|].
  cbn [hd tl filter andb].
  now destruct (startswith MARKER h).
Qed.

(** Behind a match the scan is past the marker whether it skips it or
    reads it: no position inside the marker follows a newline. *)
Lemma finditer_skip_marker (c : char) (t : str) (b : bool) :
  startswith MARKER (c :: t) = true ->
  finditer_count MARKER b (length MARKER - 1) t
  = finditer_count MARKER b 0 t.
Proof.
  intros E. apply startswith_app in E as [s' Hs'].
  injection Hs' as -> ->. destruct b; reflexivity.
Qed.

Lemma finditer_count_marked (s : str) (bol : bool) :
  finditer_count MARKER bol 0 s = marked_from bol s.
Proof.
  revert bol; induction s as [|c t IH]; intros bol.
  - unfold marked_from. cbn. now rewrite andb_false_r.
  - unfold marked_from.
    rewrite (startswith_first_line MARKER (c :: t)) by reflexivity.
    rewrite split_cons.
    cbn [finditer_count].
    destruct (N.eqb_spec c NL) as [-> | Hc].
    + cbn [tl]. replace (startswith MARKER (NL :: t)) with false by reflexivity.
      rewrite andb_false_r, IH, marked_from_true.
      reflexivity.
    + rewrite tl_push by apply split_not_nil.
      destruct (bol && startswith MARKER (c :: t)) eqn:E.
      * apply andb_true_iff in E as [_ E].
        rewrite (finditer_skip_marker c t false E), IH.
        unfold marked_from. cbn [andb]. reflexivity.
      * rewrite IH. unfold marked_from. reflexivity.
Qed.

(** C8. In variant B, for every record, [file_diffs] is the number of
    lines of the patch field that begin with the text "diff --git ", the
    lines being the pieces of the patch between newlines; the other lines
    do not count, so that a patch of seven lines of which three begin
    with the marker gives 3. *)
Theorem file_diffs_counts_marked_lines (rec : str) :
  (exists patch,
      lookup "patch" (parse_record rec) = Some (VStr patch)
      /\ lookup "file_diffs" (parse_record rec)
         = Some (VInt (Z.of_nat (marked_lines patch))))
  /\ (forall patch, finditer_count MARKER true 0 patch = marked_lines patch)
  /\ (let patch :=
        join [NL] [ lit "diff --git a/x b/x"; lit "@@ -1 +1 @@"; lit "-a";
                    lit "+ diff --git "; lit "diff --git a/y b/y";
                    lit "index 1..2"; lit "diff --git a/z b/z" ] in
      lookup "file_diffs"
        (parse_record (join [US] [lit "s"; lit "d"; lit "a"; lit "e";
                                  lit "j"; lit "b"; patch]))
      = Some (VInt 3)).
Proof.
  split; [|split].
  - rewrite parse_record_fields. cbv zeta.
    eexists. split; [reflexivity|]. cbn [lookup].
    change (get (lit "file_diffs") _) with
      (Some (VInt (Z.of_nat (finditer_count MARKER true 0
                (lstrip [NL] (seventh (split_max US rec 6))))))).
    rewrite finditer_count_marked, marked_from_true. reflexivity.
  - intros patch. now rewrite finditer_count_marked, marked_from_true.
  - vm_compute. reflexivity.
Qed.

End FileDiffs.

(** * Variant A: the statistics loop *)

Section StatsMode.

Import ToJson.

Lemma bind_ok {A B} (r : result A) (k : A -> result B) (b : B) :
  bind r k = Ok b <-> exists a, r = Ok a /\ k a = Ok b.
Proof.
  destruct r as [a | e]; simpl.
  - split; [intros H; now exists a | intros [a' [Ha H]]; congruence].
  - split; [discriminate | intros [a' [Ha H]]; discriminate].
Qed.

Lemma exn_eq (e : exn) : e = ValueError.
Proof. now destruct e. Qed.

(** The unpacking in [commit] does not raise: a commit is the dictionary
    of the padded fields and of the entries of the statistics lines. *)
Lemma commit_unfold (rec : str) :
  commit rec
  = (files <- stat_lines (splitlines (body_plus rec)) [] ;;
     Ok (commit_dict (pad6 (split US (header rec))) files)).
Proof.
  unfold commit, pad6. cbv zeta.
  now rewrite (unpack6_pad6 (split US (header rec))).
Qed.

(** What [accepted] checks, one condition at a time. *)
Lemma accepted_iff (line : str) :
  accepted line = true <->
  contains TAB line = true
  /\ (3 <= length (split TAB line))%nat
  /\ strip (nth 0 (split TAB line) []) <> []
  /\ strip (nth 1 (split TAB line) []) <> [].
Proof.
  unfold accepted. cbv zeta.
  rewrite !andb_true_iff, Nat.leb_le.
  assert (T : forall s : str, truthy s = true <-> s <> [])
    by (intros [|? ?]; simpl; split; congruence).
  rewrite !T. tauto.
Qed.

Lemma file_change_rejected (line : str) :
  accepted line = false -> file_change line = Ok None.
Proof. unfold file_change. now intros ->. Qed.

Lemma file_change_accepted (line : str) :
  accepted line = true ->
  file_change line =
  (added <- count (nth 0 (split TAB line) []) ;;
   deleted <- count (nth 1 (split TAB line) []) ;;
   Ok (Some (file_change_dict (join [TAB] (skipn 2 (split TAB line)))
               added deleted))).
Proof. unfold file_change. now intros ->. Qed.

(** A line either gives no entry, or one entry, or ends the run. *)
Lemma file_change_cases (line : str) :
  (line_parses line = true /\ exists fc, file_change line = Ok fc)
  \/ (line_parses line = false /\ file_change line = Raise ValueError).
Proof.
  unfold line_parses, counts_readable.
  destruct (accepted line) eqn:A.
  - rewrite (file_change_accepted line A). simpl implb.
    destruct (count (nth 0 (split TAB line) [])) as [a | e]; simpl.
    + destruct (count (nth 1 (split TAB line) [])) as [d | e]; simpl.
      * left. split; [reflexivity | eexists; reflexivity].
      * right. now rewrite (exn_eq e).
    + right. now rewrite (exn_eq e).
  - rewrite (file_change_rejected line A). left.
    split; [reflexivity | eexists; reflexivity].
Qed.

Lemma stat_lines_app (a b : list str) (files : list value) :
  stat_lines (a ++ b) files = (f <- stat_lines a files ;; stat_lines b f).
Proof.
  revert files; induction a as [|l a IH]; intros files; simpl.
  - reflexivity.
  - destruct (file_change l) as [fc | e]; simpl; [apply IH | reflexivity].
Qed.

(** The loop ends normally exactly when every line can be parsed. *)
Lemma stat_lines_cases (lines : list str) (files : list value) :
  if forallb line_parses lines
  then exists out, stat_lines lines files = Ok out
  else stat_lines lines files = Raise ValueError.
Proof.
  revert files; induction lines as [|l lines IH]; intros files; simpl.
  - now exists files.
  - destruct (file_change_cases l) as [[Hp [fc Hfc]] | [Hp Hfc]];
      rewrite Hp, Hfc; simpl.
    + apply IH.
    + reflexivity.
Qed.

Lemma commit_cases (rec : str) :
  if record_parses rec
  then exists files,
      commit rec = Ok (commit_dict (pad6 (split US (header rec))) files)
  else commit rec = Raise ValueError.
Proof.
  unfold record_parses. rewrite commit_unfold.
  pose proof (stat_lines_cases (splitlines (body_plus rec)) []) as H.
  destruct (forallb line_parses (splitlines (body_plus rec))).
  - destruct H as [files ->]. now exists files.
  - now rewrite H.
Qed.

Lemma commit_ok (rec : str) (c : value) :
  commit rec = Ok c ->
  exists files, c = commit_dict (pad6 (split US (header rec))) files.
Proof.
  rewrite commit_unfold. intros H. apply bind_ok in H as [files [_ H]].
  injection H as <-. now exists files.
Qed.

(** The loop over the records: the commits are added at the end, one for
    each record and in the order of the records. *)
Lemma run_cases (recs : list str) (commits : list value) :
  if forallb record_parses recs
  then exists cs, run recs commits = Ok (commits ++ cs)
                  /\ Forall2 (fun rec c => commit rec = Ok c) recs cs
  else run recs commits = Raise ValueError.
Proof.
  revert commits; induction recs as [|r recs IH]; intros commits; simpl.
  - exists []. split; [now rewrite app_nil_r | constructor].
  - pose proof (commit_cases r) as Hr.
    destruct (record_parses r); simpl.
    + destruct Hr as [files Hr]. rewrite Hr. simpl.
      specialize (IH (commits ++ [commit_dict (pad6 (split US (header r))) files])).
      destruct (forallb record_parses recs).
      * destruct IH as [cs [Hrun Hall]].
        exists (commit_dict (pad6 (split US (header r))) files :: cs).
        split; [now rewrite Hrun, <- app_assoc | now constructor].
      * exact IH.
    + now rewrite Hr.
Qed.

End StatsMode.

(** * Facts about [int] *)

Section IntFacts.

Lemma In_lstrip_by (p : char -> bool) (x : char) (s : str) :
  In x (lstrip_by p s) -> In x s.
Proof.
  induction s as [|c t IH]; simpl; [tauto|].
  destruct (p c); [intros H; right; auto | tauto].
Qed.

(** The transformation brings in no minus sign. *)
Lemma In_minus_transform (s : str) :
  In 45 (transform_decimal_and_space s) -> In 45 s.
Proof.
  induction s as [|c t IH]; cbn [transform_decimal_and_space In]; [tauto|].
  destruct (c <? 127).
  - cbn [In]. intros [H | H]; [now left | right; auto].
  - destruct (isspace c).
    + cbn [In]. intros [H | H]; [discriminate | right; auto].
    + destruct (to_decimal c) as [d|]; cbn [In].
      * intros [H | H]; [unfold char in *; lia | right; auto].
      * intros [H | []]. discriminate.
Qed.

Lemma first_is_In (x : char) (b : str) : first_is x b = true -> In x b.
Proof.
  destruct b as [|c t]; simpl; [discriminate|].
  intros H. apply N.eqb_eq in H. now left.
Qed.

(** A negative result needs a minus sign in the text. *)
Lemma long_from_string_negative (b : str) (z : Z) :
  long_from_string b = Some z -> (z < 0)%Z -> In 45 b.
Proof.
  unfold long_from_string. intros H Hz.
  destruct (first_is 45 (lstrip_by c_isspace b)) eqn:E.
  - apply first_is_In in E. now apply In_lstrip_by in E.
  - exfalso.
    destruct (first_is 95 _); [discriminate|].
    destruct (scan_digits _ 0 0 0) as [[[v digits] rest]|]; [|discriminate].
    destruct (digits =? 0); [discriminate|].
    destruct (_ && _); [discriminate|].
    destruct (lstrip_by c_isspace rest); [|discriminate].
    injection H as <-. lia.
Qed.

Lemma int_negative (s : str) (z : Z) :
  int s = Ok z -> (z < 0)%Z -> In 45 s.
Proof.
  unfold int. intros H Hz.
  destruct (long_from_string (transform_decimal_and_space s)) as [z'|] eqn:E;
    [|discriminate].
  injection H as ->.
  apply In_minus_transform. eapply long_from_string_negative; eauto.
Qed.

Lemma is_decimal_no_minus (s : str) : is_decimal s = true -> ~ In 45 s.
Proof.
  unfold is_decimal. intros H. apply andb_true_iff in H as [_ H].
  rewrite forallb_forall in H. intros Hin.
  specialize (H 45 Hin). discriminate.
Qed.



Lemma count_dash : ToJson.count (lit "-") = Ok 0%Z.
Proof. reflexivity. Qed.

(** A column of the input format never counts below zero. *)
Lemma count_in_format (col : str) (z : Z) :
  decimal_or_dash col = true -> ToJson.count col = Ok z -> (0 <= z)%Z.
Proof.
  unfold decimal_or_dash, ToJson.count.
  destruct (str_eqb col (lit "-")); simpl.
  - intros _ H. injection H as <-. lia.
  - intros Hd H.
    destruct (Z.lt_ge_cases z 0) as [Hneg | Hpos]; [|lia].
    exfalso. apply (is_decimal_no_minus col Hd).
    eapply int_negative; eauto.
Qed.

(** Digits alone are read to the end. *)
Lemma scan_digits_all (s : str) (prev : char) (acc digits : N) :
  forallb is_ascii_digit s = true ->
  (prev =? 95) = false ->
  exists v,
    scan_digits s prev acc digits
    = Some (v, digits + N.of_nat (length s), []).
Proof.
  revert prev acc digits; induction s as [|c t IH];
    intros prev acc digits Hs Hprev.
  - cbn [scan_digits]. rewrite Hprev. exists acc.
    cbn [length N.of_nat]. now rewrite N.add_0_r.
  - cbn [forallb] in Hs. apply andb_true_iff in Hs as [Hc Ht].
    cbn [scan_digits]. rewrite Hc.
    assert (Hc95 : (c =? 95) = false).
    { unfold is_ascii_digit in Hc. apply andb_true_iff in Hc as [_ Hc].
      apply N.leb_le in Hc. apply N.eqb_neq. unfold char in *. lia. }
    destruct (IH c (10 * acc + (c - 48)) (digits + 1) Ht Hc95) as [v Hv].
    exists v. rewrite Hv. cbn [length]. rewrite Nat2N.inj_succ.
    replace (digits + 1 + N.of_nat (length t))
      with (digits + N.succ (N.of_nat (length t))) by lia.
    reflexivity.
Qed.

Lemma transform_digits (s : str) :
  forallb is_ascii_digit s = true -> transform_decimal_and_space s = s.
Proof.
  induction s as [|c t IH]; [reflexivity|].
  cbn [forallb transform_decimal_and_space]. intros H.
  apply andb_true_iff in H as [Hc Ht].
  assert (L : (c <? 127) = true).
  { unfold is_ascii_digit in Hc. apply andb_true_iff in Hc as [_ Hc].
    apply N.leb_le in Hc. apply N.ltb_lt. unfold char in *. lia. }
  now rewrite L, (IH Ht).
Qed.

(** What a digit is not. *)
Lemma digit_tests (c : char) :
  is_ascii_digit c = true ->
  c_isspace c = false
  /\ (c =? 43) = false /\ (c =? 45) = false /\ (c =? 95) = false.
Proof.
  unfold is_ascii_digit, c_isspace. intros H.
  apply andb_true_iff in H as [H1 H2].
  apply N.leb_le in H1, H2. unfold char in *.
  repeat split.
  - apply orb_false_iff. split.
    + apply andb_false_iff. right. apply N.leb_gt. lia.
    + apply N.eqb_neq. lia.
  - apply N.eqb_neq. lia.
  - apply N.eqb_neq. lia.
  - apply N.eqb_neq. lia.
Qed.

(** A decimal integer within the limit of digits is read, and "-" is a
    zero: a column of the input format is a count. *)
Lemma int_decimal (s : str) :
  is_decimal s = true ->
  (N.of_nat (length s) <=? int_max_str_digits) = true ->
  exists z, int s = Ok z.
Proof.
  unfold is_decimal. intros H Hlen.
  apply andb_true_iff in H as [Hne Hd].
  unfold int. rewrite (transform_digits s Hd).
  destruct s as [|c t]; [discriminate|].
  pose proof Hd as Hc. cbn [forallb] in Hc.
  apply andb_true_iff in Hc as [Hc _].
  destruct (digit_tests c Hc) as [Hsp [H43 [H45 H95]]].
  unfold long_from_string.
  cbn [lstrip_by]. rewrite Hsp.
  cbn [first_is]. rewrite H43, H45. cbn [orb first_is]. rewrite H95.
  destruct (scan_digits_all (c :: t) 0 0 0 Hd eq_refl) as [v Hv].
  rewrite Hv. rewrite N.add_0_l.
  assert (Hnz : (N.of_nat (length (c :: t)) =? 0) = false).
  { apply N.eqb_neq. cbn [length]. rewrite Nat2N.inj_succ. lia. }
  rewrite Hnz.
  assert (Hlim : (int_max_str_digits <? N.of_nat (length (c :: t))) = false).
  { apply N.ltb_ge. now apply N.leb_le. }
  rewrite Hlim, andb_false_r. cbn [lstrip_by].
  eexists. reflexivity.
Qed.

Lemma count_decimal_or_dash (col : str) :
  decimal_or_dash col = true ->
  (N.of_nat (length col) <=? int_max_str_digits) = true ->
  exists z, ToJson.count col = Ok z.
Proof.
  unfold decimal_or_dash, ToJson.count. intros H Hlen.
  destruct (str_eqb col (lit "-")); [now exists 0%Z|].
  now apply int_decimal.
Qed.

(** A line of the input format with counts within the limit of digits is
    parsed. *)
Lemma line_in_format_parses (line : str) :
  line_in_format line = true -> counts_within_limit line = true ->
  line_parses line = true.
Proof.
  unfold line_in_format, counts_within_limit, line_parses, counts_readable.
  destruct (ToJson.accepted line); [|reflexivity].
  cbn [implb]. intros H L.
  apply andb_true_iff in H as [H0 H1].
  apply andb_true_iff in L as [L0 L1].
  destruct (count_decimal_or_dash _ H0 L0) as [a ->].
  destruct (count_decimal_or_dash _ H1 L1) as [d ->].
  reflexivity.
Qed.

End IntFacts.

(** * Variant A: the counts *)

Section Counts.

Import ToJson.







End Counts.

(** * Variant A: counts of an input in the documented format *)

Section CountsInFormat.

Import ToJson.

Lemma file_change_nonnegative (line : str) (fc : value) :
  line_in_format line = true ->
  file_change line = Ok (Some fc) -> counts_nonnegative fc.
Proof.
  unfold line_in_format. intros Hf H.
  destruct (accepted line) eqn:A.
  - rewrite (file_change_accepted line A) in H.
    cbn [implb] in Hf. apply andb_true_iff in Hf as [H0 H1].
    apply bind_ok in H as [a [Ha H]].
    apply bind_ok in H as [d [Hd H]].
    injection H as <-.
    exists (join [TAB] (skipn 2 (split TAB line))), a, d.
    split; [reflexivity|].
    split; [exact (count_in_format _ _ H0 Ha)
           | exact (count_in_format _ _ H1 Hd)].
  - rewrite (file_change_rejected line A) in H. discriminate.
Qed.

Lemma stat_lines_nonnegative (lines : list str) (files out : list value) :
  forallb line_in_format lines = true ->
  Forall counts_nonnegative files ->
  stat_lines lines files = Ok out -> Forall counts_nonnegative out.
Proof.
  revert files; induction lines as [|l lines IH]; intros files Hf Hfiles H.
  - simpl in H. now injection H as <-.
  - simpl in Hf. apply andb_true_iff in Hf as [Hl Hf].
    simpl in H. apply bind_ok in H as [fc [Hfc H]].
    refine (IH _ Hf _ H).
    destruct fc as [d|]; [|exact Hfiles].
    apply Forall_app. split; [exact Hfiles|].
    constructor; [|constructor].
    eapply file_change_nonnegative; eauto.
Qed.

Lemma commit_nonnegative (rec : str) (c : value) :
  record_in_format rec = true ->
  commit rec = Ok c -> commit_counts_nonnegative c.
Proof.
  unfold record_in_format. rewrite commit_unfold. intros Hf H.
  apply bind_ok in H as [files [Hfiles H]].
  injection H as <-.
  exists (pad6 (split US (header rec))), files.
  split; [reflexivity|].
  eapply stat_lines_nonnegative; eauto.
Qed.

Lemma run_nonnegative (recs : list str) (commits out : list value) :
  forallb record_in_format recs = true ->
  Forall commit_counts_nonnegative commits ->
  run recs commits = Ok out -> Forall commit_counts_nonnegative out.
Proof.
  revert commits; induction recs as [|r recs IH]; intros commits Hf Hc H.
  - simpl in H. now injection H as <-.
  - simpl in Hf. apply andb_true_iff in Hf as [Hr Hf].
    simpl in H. apply bind_ok in H as [c [Hcommit H]].
    refine (IH _ Hf _ H).
    apply Forall_app. split; [exact Hc|].
    constructor; [|constructor].
    eapply commit_nonnegative; eauto.
Qed.

(** C5. In variant A, for every input in which the first two columns of
    every accepted statistics line are decimal integers (non-empty runs
    of the digits 0 to 9) or the literal "-", every FileChange entry of
    every commit of the array that is written has an added and a deleted
    count that are integers not below zero. *)
Theorem counts_never_negative (raw : bytes) (out : value) :
  input_in_format raw = true ->
  main raw = Ok out ->
  exists commits,
    out = VList commits /\ Forall commit_counts_nonnegative commits.
Proof.
  unfold input_in_format, main. cbv zeta. intros Hf H.
  apply bind_ok in H as [commits [Hrun H]].
  injection H as <-.
  exists commits. split; [reflexivity|].
  eapply run_nonnegative; eauto.
Qed.

(** Two commits; the second has a text file and a binary file. *)
Lemma counts_never_negative_witness :
  exists commits,
    main (to_bytes
            (lit "a1" ++ [US] ++ lit "d1" ++ [US] ++ lit "me" ++ [NL; RS]
             ++ lit "b2" ++ [US] ++ lit "d2" ++ [NL]
             ++ lit "12" ++ [TAB] ++ lit "3" ++ [TAB] ++ lit "src/a.c" ++ [NL]
             ++ lit "-" ++ [TAB] ++ lit "-" ++ [TAB] ++ lit "logo.png" ++ [NL]))
    = Ok (VList commits)
    /\ length commits = 2%nat
    /\ Forall commit_counts_nonnegative commits.
Proof.
  destruct (counts_never_negative
              (to_bytes
                 (lit "a1" ++ [US] ++ lit "d1" ++ [US] ++ lit "me" ++ [NL; RS]
                  ++ lit "b2" ++ [US] ++ lit "d2" ++ [NL]
                  ++ lit "12" ++ [TAB] ++ lit "3" ++ [TAB] ++ lit "src/a.c"
                  ++ [NL]
                  ++ lit "-" ++ [TAB] ++ lit "-" ++ [TAB] ++ lit "logo.png"
                  ++ [NL]))
              _ eq_refl eq_refl) as [commits [Hout Hall]].
  exists commits. split; [now rewrite <- Hout|].
  split; [|exact Hall].
  injection Hout as <-. reflexivity.
Defined.

End CountsInFormat.

(** * Variant A: lines that are not statistics *)

Section RejectedLines.

Import ToJson.

(** C3, as it is worded, at a line of three columns whose counts are not
    numbers: the line is not left out of the list, it ends the parsing of
    its record with a [ValueError], and the entry of the line before it
    is lost with it. *)
Lemma malformed_stat_line_counterexample :
  let bad := lit "a" ++ [TAB] ++ lit "b" ++ [TAB] ++ lit "c" in
  let rec := lit "c0ffee" ++ [NL]
             ++ lit "1" ++ [TAB] ++ lit "2" ++ [TAB] ++ lit "ok.c" ++ [NL]
             ++ bad in
  In bad (splitlines (body_plus rec))
  /\ file_change bad = Raise ValueError
  /\ commit rec = Raise ValueError
  /\ ~ (exists c, commit rec = Ok c).
Proof.
  cbv zeta. split; [right; left; reflexivity|].
  split; [reflexivity|].
  split; [reflexivity|].
  intros [c Hc]. vm_compute in Hc. discriminate.
Qed.

(** C3, amended. In variant A a body line that has no tab, or fewer than
    three tab-separated columns, or a blank first or second column gives
    no entry and no error, and the list of entries is the one the other
    lines give without it. The parsing of a record completes exactly when
    both counts of every other line can be read, each being "-" or a text
    that [int] accepts; otherwise it ends with a [ValueError]. *)
Theorem rejected_lines_are_skipped (line rec : str) :
  contains TAB line = false
  \/ (length (split TAB line) < 3)%nat
  \/ strip (nth 0 (split TAB line) []) = []
  \/ strip (nth 1 (split TAB line) []) = [] ->
  file_change line = Ok None
  /\ (forall pre post files,
         stat_lines (pre ++ line :: post) files
         = stat_lines (pre ++ post) files)
  /\ (if record_parses rec
      then exists files,
          commit rec = Ok (commit_dict (pad6 (split US (header rec))) files)
      else commit rec = Raise ValueError).
Proof.
  intros H.
  assert (A : accepted line = false).
  { destruct (accepted line) eqn:A; [|reflexivity].
    apply accepted_iff in A as [A1 [A2 [A3 A4]]].
    destruct H as [H | [H | [H | H]]]; [congruence | lia | tauto | tauto]. }
  pose proof (file_change_rejected line A) as Hfc.
  split; [exact Hfc|].
  split; [|apply commit_cases].
  intros pre post files.
  rewrite !stat_lines_app. simpl. rewrite Hfc. reflexivity.
Qed.

(** A summary line between two statistics lines. *)
Lemma rejected_lines_are_skipped_witness :
  let summary := [TAB] ++ lit "2 files changed" in
  let l1 := lit "12" ++ [TAB] ++ lit "3" ++ [TAB] ++ lit "a.c" in
  let l2 := lit "-" ++ [TAB] ++ lit "-" ++ [TAB] ++ lit "b.png" in
  file_change summary = Ok None
  /\ stat_lines [l1; summary; l2] [] = stat_lines [l1; l2] [].
Proof.
  intros summary l1 l2.
  destruct (rejected_lines_are_skipped summary []) as [H1 [H2 _]].
  - right; right; left. reflexivity.
  - split; [exact H1 | exact (H2 [l1] [l2] [])].
Defined.

End RejectedLines.

(** * The six header fields *)

Section HeaderFields.

(** The header fields of a commit of variant A. *)
Lemma commit_dict_lookup (fields : list str) (files : list value) (k : nat) :
  (k < 6)%nat ->
  lookup (nth k header_keys EmptyString) (ToJson.commit_dict fields files)
  = Some (VStr (if (k =? 5)%nat then strip (nth k fields [])
                else nth k fields [])).
Proof.
  intros Hk.
  do 6 (destruct k as [|k]; [reflexivity|]). lia.
Qed.

(** The header fields of a record of variant B. *)
Lemma parse_record_lookup (rec : str) (k : nat) :
  (k < 6)%nat ->
  lookup (nth k header_keys EmptyString) (ToJsonl.parse_record rec)
  = Some (VStr (if (k =? 5)%nat
                then strip (nth k (ToJsonl.pad6 (split_max US rec 6)) [])
                else nth k (ToJsonl.pad6 (split_max US rec 6)) [])).
Proof.
  intros Hk. rewrite parse_record_fields. cbv zeta.
  do 6 (destruct k as [|k]; [reflexivity|]). lia.
Qed.

Lemma strip_nil : strip [] = [].
Proof. reflexivity. Qed.

(** The names unpacked from the padded and cut list are the first six
    segments, a missing one being empty: no unpacking raises. *)
Lemma unpack6_six_names (parts : list str) :
  unpack6 (firstn 6 (parts ++ repeat [] 6)) = Ok (six_names parts).
Proof.
  rewrite (unpack6_pad6 parts). cbv zeta. unfold six_names.
  now rewrite !pad6_nth by lia.
Qed.

(** C6. In both variants the six names sha, date, author, email, subject
    and body are unpacked from the padded list without error, whatever
    the number of segments of the header, each being its segment or the
    empty string when the header has no such segment; every record has
    the same keys; and a header field for which the header has no segment
    is present with the empty string as its value, so that with fewer
    than six segments this holds for every field from the first missing
    one to body. In variant A a short header never makes the commit fail:
    the commit exists whenever the statistics lines can be read, and the
    record is the one that the script appends. *)
Theorem missing_header_fields_are_empty (rec : str) (k : nat) :
  (k < 6)%nat ->
  (unpack6 (ToJsonl.pad6 (split_max US rec 6))
   = Ok (six_names (split_max US rec 6))
   /\ record_keys (ToJsonl.parse_record rec) = keys_B
   /\ ((length (split_max US rec 6) <= k)%nat ->
       lookup (nth k header_keys EmptyString) (ToJsonl.parse_record rec)
       = Some (VStr [])))
  /\ (unpack6 (ToJson.pad6 (split US (ToJson.header rec)))
      = Ok (six_names (split US (ToJson.header rec)))
      /\ (record_parses rec = true -> exists c, ToJson.commit rec = Ok c)
      /\ (forall c, ToJson.commit rec = Ok c ->
            record_keys c = keys_A
            /\ ((length (split US (ToJson.header rec)) <= k)%nat ->
                lookup (nth k header_keys EmptyString) c = Some (VStr [])))).
Proof.
  intros Hk. split.
  - split; [apply unpack6_six_names|].
    split; [now rewrite parse_record_fields|]. intros Hlen.
    rewrite (parse_record_lookup rec k Hk).
    unfold ToJsonl.pad6. rewrite (pad6_missing _ k Hlen).
    now destruct (k =? 5)%nat.
  - split; [apply unpack6_six_names|]. split.
    + intros Hp. pose proof (commit_cases rec) as H. rewrite Hp in H.
      destruct H as [files H]. eexists. exact H.
    + intros c Hc. apply commit_ok in Hc as [files ->].
      split; [reflexivity|]. intros Hlen.
      rewrite (commit_dict_lookup _ files k Hk).
      unfold ToJson.pad6. rewrite (pad6_missing _ k Hlen).
      now destruct (k =? 5)%nat.
Qed.

(** A record of three segments: email is the fourth field. *)
Lemma missing_header_fields_are_empty_witness :
  let rec := lit "a1" ++ [US] ++ lit "d1" ++ [US] ++ lit "me" in
  unpack6 (ToJsonl.pad6 (split_max US rec 6))
  = Ok (lit "a1", lit "d1", lit "me", [], [], [])
  /\ lookup "email" (ToJsonl.parse_record rec) = Some (VStr [])
  /\ exists c, ToJson.commit rec = Ok c
               /\ lookup "email" c = Some (VStr []).
Proof.
  intros rec.
  destruct (missing_header_fields_are_empty rec 3) as [[HU [_ HB]] [_ [HC HA]]].
  - repeat constructor.
  - split; [exact HU|]. split.
    + apply HB. repeat constructor.
    + destruct (HC eq_refl) as [c Hc]. exists c. split; [exact Hc|].
      apply (proj2 (HA c Hc)). repeat constructor.
Defined.

(** C9. In variant A, when the header line has more than six fields, the
    cut [:6] keeps the first six alone, so that the six names (sha, date,
    author, email, subject, and body, which is then trimmed) are unpacked
    without a "too many values" error; the commit is built from these six
    and from the lines below the header, and two records that agree on
    the first six fields and on these lines give the same result,
    whatever their fields from the seventh onward are. *)
Theorem fields_beyond_sixth_are_discarded (rec : str) :
  (6 < length (split US (ToJson.header rec)))%nat ->
  let six := firstn 6 (split US (ToJson.header rec)) in
  ToJson.pad6 (split US (ToJson.header rec)) = six
  /\ unpack6 (ToJson.pad6 (split US (ToJson.header rec)))
     = Ok (six_names six)
  /\ ToJson.commit rec
     = (files <- ToJson.stat_lines (splitlines (ToJson.body_plus rec)) [] ;;
        Ok (ToJson.commit_dict six files))
  /\ (forall k, (k < 6)%nat ->
                nth k six [] = nth k (split US (ToJson.header rec)) [])
  /\ (forall rec',
         firstn 6 (split US (ToJson.header rec')) = six ->
         ToJson.body_plus rec' = ToJson.body_plus rec ->
         ToJson.commit rec' = ToJson.commit rec).
Proof.
  intros Hlen six.
  assert (Hpad : ToJson.pad6 (split US (ToJson.header rec)) = six)
    by (apply pad6_long; lia).
  assert (Hnth : forall k, (k < 6)%nat ->
                 nth k six [] = nth k (split US (ToJson.header rec)) []).
  { intros k Hk. subst six.
    rewrite <- (firstn_skipn 6 (split US (ToJson.header rec))) at 2.
    rewrite app_nth1; [reflexivity|]. rewrite length_firstn. lia. }
  split; [exact Hpad|].
  split.
  { unfold ToJson.pad6. rewrite unpack6_six_names. unfold six_names.
    now rewrite !Hnth by lia. }
  split; [rewrite commit_unfold; now rewrite Hpad|].
  split; [exact Hnth|].
  intros rec' Hsix Hbody.
  assert (Hpad' : ToJson.pad6 (split US (ToJson.header rec')) = six).
  { rewrite <- Hsix. apply pad6_long.
    assert (L : length (firstn 6 (split US (ToJson.header rec'))) = 6%nat).
    { rewrite Hsix. subst six. rewrite length_firstn. lia. }
    rewrite length_firstn in L. lia. }
  rewrite !commit_unfold. now rewrite Hpad, Hpad', Hbody.
Qed.

(** Eight header fields, with and without the last two. *)
Lemma fields_beyond_sixth_are_discarded_witness :
  let six := join [US] [lit "a1"; lit "d1"; lit "me"; lit "m@x"; lit "subj";
                        lit "body"] in
  let stats := [NL] ++ lit "1" ++ [TAB] ++ lit "2" ++ [TAB] ++ lit "f.c" in
  unpack6 (ToJson.pad6
             (split US (six ++ [US] ++ lit "seventh" ++ [US] ++ lit "eighth")))
  = Ok (lit "a1", lit "d1", lit "me", lit "m@x", lit "subj", lit "body")
  /\ ToJson.commit (six ++ [US] ++ lit "other" ++ stats)
     = ToJson.commit (six ++ [US] ++ lit "seventh" ++ [US] ++ lit "eighth"
                      ++ stats).
Proof.
  intros six stats.
  destruct (fields_beyond_sixth_are_discarded
              (six ++ [US] ++ lit "seventh" ++ [US] ++ lit "eighth" ++ stats))
    as [_ [HU [_ [_ HR]]]].
  - vm_compute. repeat constructor.
  - split; [exact HU|].
    apply (HR (six ++ [US] ++ lit "other" ++ stats)); reflexivity.
Defined.

End HeaderFields.

(** * [json.dumps] writes one line *)

Section OneLine.

Lemma hex_digit_not_newline (n : N) : (hex_digit n =? NL) = false.
Proof.
  unfold hex_digit, NL. apply N.eqb_neq.
  destruct (n <? 10); lia.
Qed.

Lemma escape_char_one_line (c : char) : contains NL (escape_char c) = false.
Proof.
  unfold escape_char.
  repeat match goal with
         | |- context [if ?x =? ?y then _ else _] =>
             destruct (N.eqb_spec x y); [reflexivity|]
         end.
  destruct (c <? 32).
  - rewrite contains_app. unfold contains at 2. cbn [existsb].
    rewrite !(N.eqb_sym NL), !hex_digit_not_newline. reflexivity.
  - unfold contains. cbn [existsb]. rewrite orb_false_r.
    apply N.eqb_neq. unfold NL. congruence.
Qed.

Lemma flat_map_one_line (f : char -> str) (s : str) :
  (forall c, contains NL (f c) = false) ->
  contains NL (flat_map f s) = false.
Proof.
  intros Hf. induction s as [|c t IH]; [reflexivity|].
  cbn [flat_map]. now rewrite contains_app, Hf, IH.
Qed.

Lemma encode_basestring_one_line (s : str) :
  contains NL (encode_basestring s) = false.
Proof.
  unfold encode_basestring.
  rewrite !contains_app, (flat_map_one_line _ _ escape_char_one_line).
  reflexivity.
Qed.

Lemma string_of_uint_one_line (d : Decimal.uint) :
  contains NL (lit (NilEmpty.string_of_uint d)) = false.
Proof.
  induction d; [reflexivity | ..]; exact IHd.
Qed.

Lemma nilzero_uint_one_line (d : Decimal.uint) :
  contains NL (lit (NilZero.string_of_uint d)) = false.
Proof.
  destruct d; [reflexivity | apply string_of_uint_one_line ..].
Qed.

Lemma int_repr_one_line (z : Z) : contains NL (int_repr z) = false.
Proof.
  unfold int_repr, NilZero.string_of_int.
  destruct (Z.to_int z) as [d | d].
  - apply nilzero_uint_one_line.
  - change (contains NL (lit (String "-" (NilZero.string_of_uint d))))
      with ((NL =? 45) || contains NL (lit (NilZero.string_of_uint d))).
    now rewrite nilzero_uint_one_line.
Qed.

Lemma join_one_line (sep : str) (pieces : list str) :
  contains NL sep = false ->
  Forall (fun p => contains NL p = false) pieces ->
  contains NL (join sep pieces) = false.
Proof.
  intros Hsep H. induction H as [|p ps Hp Hps IH]; [reflexivity|].
  destruct ps as [|q qs]; [exact Hp|].
  change (join sep (p :: q :: qs)) with (p ++ sep ++ join sep (q :: qs)).
  now rewrite !contains_app, Hp, Hsep, IH.
Qed.

(** The text of a value holds no newline: newlines in strings are
    written as the two characters of their escape. *)
Lemma dumps_one_line (v : value) : contains NL (dumps v) = false.
Proof.
  induction v as [s | z | items IH | items IH] using value_induction.
  - apply encode_basestring_one_line.
  - apply int_repr_one_line.
  - cbn [dumps]. rewrite !contains_app.
    rewrite join_one_line; [reflexivity | reflexivity |].
    induction IH; constructor; auto.
  - cbn [dumps]. rewrite !contains_app.
    rewrite join_one_line; [reflexivity | reflexivity |].
    induction IH as [|[k x] r Hx Hr IHr]; constructor; auto.
    rewrite !contains_app, encode_basestring_one_line. exact Hx.
Qed.

End OneLine.

(** * One record for each fragment, in order *)

Section RecordCount.

(** What variant B has written after its loop. *)
Lemma jsonl_run_text (recs : list str) (w : str) :
  ToJsonl.run recs w
  = w ++ concat (map (fun r => dumps (ToJsonl.parse_record r) ++ [NL]) recs).
Proof.
  revert w; induction recs as [|r recs IH]; intros w;
    cbn [ToJsonl.run map concat].
  - now rewrite app_nil_r.
  - rewrite IH. unfold ToJsonl.write. now rewrite <- !app_assoc.
Qed.

(** A text of lines that end with a newline, cut at the newlines, is
    these lines and an empty rest. *)
Lemma split_lines (lines : list str) :
  Forall (fun l => contains NL l = false) lines ->
  split NL (concat (map (fun l => l ++ [NL]) lines)) = lines ++ [[]].
Proof.
  intros H. induction H as [|l ls Hl Hls IH]; [reflexivity|].
  cbn [map concat]. rewrite <- app_assoc.
  change ([NL] ++ concat (map (fun l => l ++ [NL]) ls))
    with (NL :: concat (map (fun l => l ++ [NL]) ls)).
  rewrite (split_first NL l _ Hl), IH. reflexivity.
Qed.

Lemma count_occ_no_newline (l : str) :
  contains NL l = false -> count_occ N.eq_dec l NL = 0%nat.
Proof.
  intros H. apply count_occ_not_In. now apply contains_false_iff.
Qed.

Lemma line_count_lines (lines : list str) :
  Forall (fun l => contains NL l = false) lines ->
  line_count (concat (map (fun l => l ++ [NL]) lines)) = length lines.
Proof.
  unfold line_count.
  intros H. induction H as [|l ls Hl Hls IH]; [reflexivity|].
  cbn [map concat length].
  rewrite !count_occ_app.
  pose proof (count_occ_no_newline l Hl) as E.
  change (count_occ N.eq_dec [NL] NL) with 1%nat.
  unfold str, char in *. rewrite E, IH. reflexivity.
Qed.

Lemma jsonl_lines (recs : list str) :
  ToJsonl.run recs []
  = concat (map (fun l => l ++ [NL])
              (map (fun r => dumps (ToJsonl.parse_record r)) recs))
  /\ Forall (fun l => contains NL l = false)
       (map (fun r => dumps (ToJsonl.parse_record r)) recs).
Proof.
  split.
  - rewrite jsonl_run_text, map_map. reflexivity.
  - apply Forall_forall. intros l Hl.
    apply in_map_iff in Hl as [r [<- _]]. apply dumps_one_line.
Qed.

Lemma record_in_format_parses (rec : str) :
  record_in_format rec = true -> record_within_limit rec = true ->
  record_parses rec = true.
Proof.
  unfold record_in_format, record_within_limit, record_parses.
  induction (splitlines (ToJson.body_plus rec)) as [|l ls IH];
    [reflexivity|].
  cbn [forallb]. intros H L.
  apply andb_true_iff in H as [Hl H].
  apply andb_true_iff in L as [Ll L].
  now rewrite (line_in_format_parses l Hl Ll), (IH H L).
Qed.

(** On an input in the documented format whose counts are within the
    limit of digits, variant A completes, with one commit for each
    fragment. *)
Lemma main_in_format_completes (raw : bytes) :
  input_in_format raw = true -> input_within_limit raw = true ->
  exists commits,
    ToJson.main raw = Ok (VList commits)
    /\ Forall2 (fun r c => ToJson.commit r = Ok c)
         (ToJson.records (decode raw)) commits.
Proof.
  unfold input_in_format, input_within_limit, ToJson.main. cbv zeta.
  intros H L.
  assert (P : forallb record_parses (ToJson.records (decode raw)) = true).
  { induction (ToJson.records (decode raw)) as [|r rs IH]; [reflexivity|].
    cbn [forallb] in *.
    apply andb_true_iff in H as [Hr H].
    apply andb_true_iff in L as [Lr L].
    now rewrite (record_in_format_parses r Hr Lr), (IH H L). }
  pose proof (run_cases (ToJson.records (decode raw)) []) as R.
  rewrite P in R. destruct R as [cs [-> Hall]].
  now exists cs.
Qed.

(** C1, as it is worded, for variant A at an input of one fragment whose
    second statistics line has counts that are not numbers: the run ends
    with a [ValueError] and no array, of one element or of any length, is
    written. *)
Lemma one_record_per_fragment_counterexample :
  let raw := to_bytes
               (lit "c0ffee" ++ [NL]
                ++ lit "1" ++ [TAB] ++ lit "2" ++ [TAB] ++ lit "ok.c" ++ [NL]
                ++ lit "a" ++ [TAB] ++ lit "b" ++ [TAB] ++ lit "c") in
  length (ToJson.records (decode raw)) = 1%nat
  /\ ToJson.main raw = Raise ValueError
  /\ ~ (exists commits,
           ToJson.main raw = Ok (VList commits)
           /\ length commits = length (ToJson.records (decode raw))).
Proof.
  cbv zeta. split; [reflexivity|]. split; [reflexivity|].
  intros [commits [H _]]. vm_compute in H. discriminate.
Qed.

(** C1, amended. The fragments are the pieces of the decoded text between
    the characters 0x1E that are not blank. For every input, variant B
    writes one line for each fragment and in the order of the fragments:
    the text of its file, cut at the newlines, is the serialised record
    of the first fragment, of the second, and so on, and nothing after
    the last newline. Variant A, for every input, either writes the array
    that has one commit for each fragment, in the order of the fragments,
    or ends with a [ValueError] before anything is written; it writes
    the array exactly when both counts of every accepted statistics line
    of every fragment can be read. *)
Theorem one_record_per_fragment (raw : bytes) :
  let fragments :=
    filter (fun r => truthy (strip r)) (split RS (decode raw)) in
  (split NL (ToJsonl.main raw)
   = map (fun r => dumps (ToJsonl.parse_record r)) fragments ++ [[]]
   /\ line_count (ToJsonl.main raw) = length fragments)
  /\ (if forallb record_parses fragments
      then exists commits,
          ToJson.main raw = Ok (VList commits)
          /\ length commits = length fragments
          /\ Forall2 (fun r c => ToJson.commit r = Ok c) fragments commits
      else ToJson.main raw = Raise ValueError).
Proof.
  intros fragments. split.
  - unfold ToJsonl.main. cbv zeta.
    change (ToJsonl.records (decode raw)) with fragments.
    destruct (jsonl_lines fragments) as [-> Hall].
    split.
    + now apply split_lines.
    + rewrite (line_count_lines _ Hall). apply length_map.
  - unfold ToJson.main. cbv zeta.
    change (ToJson.records (decode raw)) with fragments.
    pose proof (run_cases fragments []) as H.
    destruct (forallb record_parses fragments).
    + destruct H as [cs [Hrun Hall]]. exists cs.
      rewrite Hrun. split; [reflexivity|].
      split; [|exact Hall].
      symmetry. eapply Forall2_length; eauto.
    + now rewrite H.
Qed.

End RecordCount.

(** * The decoder *)

Section Decoder.

(** The decoder at a first byte. *)
Lemma decode_utf8_unfold (b : N) (r1 : list N) :
  decode_utf8 (b :: r1) =
      if b <? 0x80 then b :: decode_utf8 r1
      else if b <? 0xC2 then REPLACEMENT :: decode_utf8 r1
      else if b <? 0xE0 then
        match r1 with
        | [] => [REPLACEMENT]
        | b2 :: r2 =>
            if is_continuation b2
            then ((b - 0xC0) * 64 + (b2 - 0x80)) :: decode_utf8 r2
            else REPLACEMENT :: decode_utf8 r1
        end
      else if b <? 0xF0 then
        match r1 with
        | [] => [REPLACEMENT]
        | b2 :: r2 =>
            if second_of_3 b b2 then
              match r2 with
              | [] => [REPLACEMENT]
              | b3 :: r3 =>
                  if is_continuation b3
                  then ((b - 0xE0) * 4096 + (b2 - 0x80) * 64 + (b3 - 0x80))
                         :: decode_utf8 r3
                  else REPLACEMENT :: decode_utf8 r2
              end
            else REPLACEMENT :: decode_utf8 r1
        end
      else if b <? 0xF5 then
        match r1 with
        | [] => [REPLACEMENT]
        | b2 :: r2 =>
            if second_of_4 b b2 then
              match r2 with
              | [] => [REPLACEMENT]
              | b3 :: r3 =>
                  if is_continuation b3 then
                    match r3 with
                    | [] => [REPLACEMENT]
                    | b4 :: r4 =>
                        if is_continuation b4
                        then ((b - 0xF0) * 262144 + (b2 - 0x80) * 4096
                              + (b3 - 0x80) * 64 + (b4 - 0x80))
                               :: decode_utf8 r4
                        else REPLACEMENT :: decode_utf8 r3
                    end
                  else REPLACEMENT :: decode_utf8 r2
              end
            else REPLACEMENT :: decode_utf8 r1
        end
      else REPLACEMENT :: decode_utf8 r1.
Proof. reflexivity. Qed.

Lemma ascii_not_continuation (b : N) : (b <? 0x80) = true -> is_continuation b = false.
Proof.
  unfold is_continuation. intros H. apply N.ltb_lt in H.
  apply andb_false_iff. left. apply N.leb_gt. exact H.
Qed.

(** Tests on bytes as facts of arithmetic. *)
Ltac tests_to_props :=
  unfold second_of_3, second_of_4, is_continuation, is_scalar, REPLACEMENT in *;
  repeat match goal with
  | H : (_ && _) = true |- _ => apply andb_true_iff in H; destruct H
  | H : (_ && _) = false |- _ => apply andb_false_iff in H; destruct H
  | H : (_ || _) = true |- _ => apply orb_true_iff in H; destruct H
  | H : (_ || _) = false |- _ => apply orb_false_iff in H; destruct H
  | H : negb _ = true |- _ => apply negb_true_iff in H
  | H : negb _ = false |- _ => apply negb_false_iff in H
  | H : (if ?c then _ else _) = _ |- _ => destruct c eqn:?
  | H : (_ <? _) = true |- _ => apply N.ltb_lt in H
  | H : (_ <? _) = false |- _ => apply N.ltb_ge in H
  | H : (_ <=? _) = true |- _ => apply N.leb_le in H
  | H : (_ <=? _) = false |- _ => apply N.leb_gt in H
  | H : (_ =? _) = true |- _ => apply N.eqb_eq in H
  | H : (_ =? _) = false |- _ => apply N.eqb_neq in H
  end.


Lemma is_scalar_iff (c : char) : is_scalar c = true <-> c < 0xD800 \/ (0xE000 <= c /\ c < 0x110000).
Proof.
  unfold is_scalar.
  rewrite orb_true_iff, andb_true_iff, N.ltb_lt, N.leb_le, N.ltb_lt. tauto.
Qed.

Lemma ascii_not_second_of_3 (x b : N) : (b <? 0x80) = true -> second_of_3 x b = false.
Proof.
  intros H. unfold second_of_3. now rewrite (ascii_not_continuation b H).
Qed.

Lemma ascii_not_second_of_4 (x b : N) : (b <? 0x80) = true -> second_of_4 x b = false.
Proof.
  intros H. unfold second_of_4. now rewrite (ascii_not_continuation b H).
Qed.


(** Decide the tests whose outcome is a hypothesis. *)
Ltac use_tests :=
  repeat (cbv beta iota;
          match goal with
          | H : ?c = _ |- context [if ?c then _ else _] => rewrite H
          end);
  cbv beta iota.

(** One step that reads [K] bytes. *)
Ltac step_with K :=
  eexists; exists K;
  split; [cbn [skipn]; reflexivity|];
  split; [apply is_scalar_iff; tests_to_props; unfold char in *; lia|];
  split; [cbn [length]; lia|];
  let b := fresh "b" in let r := fresh "r" in let Hb := fresh "Hb" in
  intros b r Hb; cbn [app skipn];
  pose proof (ascii_not_continuation b Hb);
  match goal with |- decode_utf8 (?x :: _) = _ =>
    rewrite (decode_utf8_unfold x);
    pose proof (ascii_not_second_of_3 x b Hb);
    pose proof (ascii_not_second_of_4 x b Hb)
  end;
  use_tests; reflexivity.

(** One step of the decoder: a character, a scalar value, for one to four
    bytes; and the same character for the same bytes when an ASCII byte
    follows the input instead of its end. *)
Lemma decode_step (bs : list N) :
  bs <> [] ->
  exists c k,
    decode_utf8 bs = c :: decode_utf8 (skipn k bs)
    /\ is_scalar c = true
    /\ (1 <= k <= length bs)%nat
    /\ (forall b r, (b <? 0x80) = true ->
          decode_utf8 (bs ++ b :: r) = c :: decode_utf8 (skipn k bs ++ b :: r)).
Proof.
  intros Hne.
  destruct bs as [|x [|y [|z [|w rest]]]]; [congruence | ..];
    rewrite decode_utf8_unfold;
    repeat match goal with
           | |- context [if ?c then _ else _] => destruct c eqn:?
           end;
    first [step_with 1%nat | step_with 2%nat | step_with 3%nat | step_with 4%nat].
Qed.

Lemma decode_utf8_scalar (bs : list N) :
  Forall (fun c => is_scalar c = true) (decode_utf8 bs).
Proof.
  remember (length bs) as n eqn:Hn.
  revert bs Hn; induction n as [n IH] using lt_wf_ind; intros bs Hn.
  destruct bs as [|x r]; [constructor|].
  destruct (decode_step (x :: r)) as [c [k [Heq [Hc [Hk _]]]]]; [discriminate|].
  rewrite Heq. constructor; [exact Hc|].
  apply (IH (length (skipn k (x :: r)))); [|reflexivity].
  rewrite length_skipn. subst n. lia.
Qed.

Lemma decode_utf8_ascii_byte (a : list N) (b : N) (r : list N) :
  (b <? 0x80) = true ->
  decode_utf8 (a ++ b :: r) = decode_utf8 a ++ b :: decode_utf8 r.
Proof.
  intros Hb.
  remember (length a) as n eqn:Hn.
  revert a Hn; induction n as [n IH] using lt_wf_ind; intros a Hn.
  destruct a as [|x a'].
  - cbn [app]. now rewrite decode_utf8_unfold, Hb.
  - destruct (decode_step (x :: a')) as [c [k [Heq [_ [Hk Hsync]]]]];
      [discriminate|].
    rewrite (Hsync b r Hb), Heq. cbn [app]. f_equal.
    apply (IH (length (skipn k (x :: a')))); [|reflexivity].
    rewrite length_skipn. subst n. lia.
Qed.

Lemma decode_utf8_ascii (bs : list N) :
  Forall (fun b => b < 0x80) bs -> decode_utf8 bs = bs.
Proof.
  intros H. induction H as [|b r Hb Hr IH]; [reflexivity|].
  rewrite decode_utf8_unfold.
  apply N.ltb_lt in Hb. now rewrite Hb, IH.
Qed.

Lemma decode_utf8_ascii_byte_bytes (a : bytes) (b : byte) (r : bytes) :
  (Byte.to_N b <? 0x80) = true ->
  decode (a ++ b :: r) = decode a ++ Byte.to_N b :: decode r.
Proof.
  intros Hb. unfold decode. rewrite map_app. cbn [map].
  now apply decode_utf8_ascii_byte.
Qed.

(** X1. A text of ASCII bytes is decoded to the same numbers, one
    character for each byte. *)
Theorem decode_ascii_identity (raw : bytes) :
  Forall (fun b => Byte.to_N b < 0x80) raw ->
  decode raw = map Byte.to_N raw.
Proof.
  intros H. unfold decode. apply decode_utf8_ascii.
  apply Forall_map. exact H.
Qed.

Lemma decode_ascii_identity_witness :
  decode (to_bytes (lit "c0ffee" ++ [US] ++ lit "2024" ++ [NL; RS]))
  = lit "c0ffee" ++ [US] ++ lit "2024" ++ [NL; RS].
Proof.
  refine (eq_trans (decode_ascii_identity _ _) _).
  - repeat constructor.
  - reflexivity.
Defined.

(** X2. Whatever the bytes of the input are, every character of the
    decoded text is a Unicode scalar value: at most 0x10FFFF and no
    surrogate. Bytes that are not UTF-8 never end the run and never give
    a character that UTF-8 cannot write. *)
Theorem decode_only_scalar_values (raw : bytes) :
  Forall (fun c => is_scalar c = true) (decode raw).
Proof. apply decode_utf8_scalar. Qed.

(** X3. An ASCII byte of the input is never swallowed by a broken
    sequence before it: the text of the bytes before it, the byte as a
    character, and the text of the bytes after it make up the decoded
    text. So every byte 0x1E, 0x1F, tab or newline of the input is a
    separator of the text. *)
Theorem decode_keeps_ascii_bytes (a : bytes) (b : byte) (r : bytes) :
  Byte.to_N b < 0x80 ->
  decode (a ++ b :: r) = decode a ++ Byte.to_N b :: decode r.
Proof.
  intros Hb. apply decode_utf8_ascii_byte_bytes. now apply N.ltb_lt.
Qed.

(** The first bytes of a three-byte sequence, and a record separator. *)
Lemma decode_keeps_ascii_bytes_witness :
  decode ([xe2; x82] ++ x1e :: [x41]) = [REPLACEMENT; RS; 0x41].
Proof.
  refine (eq_trans (decode_keeps_ascii_bytes [xe2; x82] x1e [x41] _) _).
  - reflexivity.
  - reflexivity.
Defined.

End Decoder.

(** * The record splitter *)

Section RecordSplitter.

Lemma join_push (sep : str) (c : char) (pieces : list str) :
  pieces <> [] -> join sep (push c pieces) = c :: join sep pieces.
Proof.
  destruct pieces as [|p [|q qs]]; [congruence | reflexivity..].
Qed.

Lemma join_cons (sep p : str) (pieces : list str) :
  pieces <> [] -> join sep (p :: pieces) = p ++ sep ++ join sep pieces.
Proof. destruct pieces; [congruence | reflexivity]. Qed.

(** The pieces of a split, joined by the separator, are the text. *)
Lemma join_split (sep : char) (s : str) : join [sep] (split sep s) = s.
Proof.
  induction s as [|c t IH]; [reflexivity|].
  rewrite split_cons. destruct (N.eqb_spec c sep) as [-> | Hc].
  - rewrite join_cons by apply split_not_nil. now rewrite IH.
  - rewrite join_push by apply split_not_nil. now rewrite IH.
Qed.

Lemma join_split_max (sep : char) (s : str) (m : nat) :
  join [sep] (split_max sep s m) = s.
Proof.
  revert m; induction s as [|c t IH]; intros m; [reflexivity|].
  cbn [split_max]. destruct m as [|m]; [reflexivity|].
  destruct (N.eqb_spec c sep) as [-> | Hc].
  - rewrite join_cons by apply split_max_not_nil. now rewrite IH.
  - rewrite join_push by apply split_max_not_nil. now rewrite IH.
Qed.

Lemma length_push (c : char) (pieces : list str) :
  pieces <> [] -> length (push c pieces) = length pieces.
Proof. destruct pieces; [congruence | reflexivity]. Qed.

(** [maxsplit] cuts give [maxsplit + 1] pieces at most. *)
Lemma length_split_max (sep : char) (s : str) (m : nat) :
  (length (split_max sep s m) <= S m)%nat.
Proof.
  revert m; induction s as [|c t IH]; intros m; [simpl; lia|].
  cbn [split_max]. destruct m as [|m]; [simpl; lia|].
  destruct (c =? sep).
  - cbn [length]. specialize (IH m). lia.
  - rewrite length_push by apply split_max_not_nil. apply IH.
Qed.

Lemma push_app (c : char) (l1 l2 : list str) :
  l1 <> [] -> push c (l1 ++ l2) = push c l1 ++ l2.
Proof. destruct l1; [congruence | reflexivity]. Qed.

(** A separator between two texts separates their pieces. *)
Lemma split_app_sep (sep : char) (a b : str) :
  split sep (a ++ sep :: b) = split sep a ++ split sep b.
Proof.
  induction a as [|c t IH].
  - cbn [app]. rewrite split_cons, N.eqb_refl. reflexivity.
  - cbn [app]. rewrite !split_cons, IH.
    destruct (c =? sep); [reflexivity|].
    now rewrite push_app by apply split_not_nil.
Qed.

Lemma Forall_push (P : char -> Prop) (c : char) (pieces : list str) :
  P c -> Forall (Forall P) pieces -> Forall (Forall P) (push c pieces).
Proof.
  intros Hc H. destruct H as [|p ps Hp Hps]; cbn [push].
  - repeat constructor. exact Hc.
  - constructor; [constructor; assumption | assumption].
Qed.

(** The pieces of a split hold characters of the text only. *)
Lemma Forall_split (P : char -> Prop) (sep : char) (s : str) :
  Forall P s -> Forall (Forall P) (split sep s).
Proof.
  intros H. induction H as [|c t Hc Ht IH].
  - repeat constructor.
  - rewrite split_cons. destruct (c =? sep).
    + constructor; [constructor | exact IH].
    + now apply Forall_push.
Qed.

Lemma Forall_split_max (P : char -> Prop) (sep : char) (s : str) (m : nat) :
  Forall P s -> Forall (Forall P) (split_max sep s m).
Proof.
  intros H. revert m. induction H as [|c t Hc Ht IH]; intros m.
  - repeat constructor.
  - cbn [split_max]. destruct m as [|m].
    + repeat constructor; assumption.
    + destruct (c =? sep).
      * constructor; [constructor | apply IH].
      * apply Forall_push; [exact Hc | apply IH].
Qed.

Lemma lstrip_by_all (p : char -> bool) (s : str) :
  forallb p s = true -> lstrip_by p s = [].
Proof.
  induction s as [|c t IH]; [reflexivity|].
  cbn [forallb lstrip_by]. intros H.
  apply andb_true_iff in H as [Hc Ht]. now rewrite Hc, IH.
Qed.

(** A text of white space is blank. *)
Lemma strip_blank (s : str) : forallb isspace s = true -> strip s = [].
Proof.
  intros H. unfold strip, rstrip_by. now rewrite (lstrip_by_all _ _ H).
Qed.

Lemma lstrip_by_head (p : char -> bool) (s : str) (c : char) (t : str) :
  lstrip_by p s = c :: t -> p c = false /\ In c s.
Proof.
  induction s as [|x s IH]; [discriminate|].
  cbn [lstrip_by]. destruct (p x) eqn:E.
  - intros H. destruct (IH H) as [H1 H2]. split; [exact H1 | now right].
  - intros H. injection H as -> ->. split; [exact E | now left].
Qed.

(** A text that is not blank holds a character that is not white
    space. *)
Lemma strip_not_blank (s : str) :
  strip s <> [] -> exists c, In c s /\ isspace c = false.
Proof.
  intros H.
  destruct (forallb isspace s) eqn:E; [now rewrite strip_blank in H|].
  assert (X : existsb (fun c => negb (isspace c)) s = true).
  { clear H. induction s as [|x s IH]; [discriminate|].
    cbn [forallb existsb] in *.
    destruct (isspace x); [exact (IH E) | reflexivity]. }
  apply existsb_exists in X as [c [Hin Hc]].
  exists c. split; [exact Hin | now apply negb_true_iff].
Qed.

Lemma truthy_iff (s : str) : truthy s = true <-> s <> [].
Proof. destruct s; simpl; split; congruence. Qed.

(** X4. Both scripts cut the text into the same records, and every
    record holds no record separator and at least one character that is
    not white space. *)
Theorem records_are_separator_free_and_not_blank (data : str) :
  ToJsonl.records data = ToJson.records data
  /\ Forall (fun r => contains RS r = false
                      /\ exists c, In c r /\ isspace c = false)
       (ToJson.records data).
Proof.
  split; [reflexivity|].
  unfold ToJson.records. apply Forall_forall. intros r Hr.
  apply filter_In in Hr as [Hin Hr].
  split.
  - pose proof (split_pieces_no_sep RS data) as H.
    rewrite Forall_forall in H. now apply H.
  - apply strip_not_blank. now apply truthy_iff.
Qed.

Lemma records_blank (data : str) :
  forallb isspace data = true -> ToJson.records data = [].
Proof.
  intros H. unfold ToJson.records.
  assert (A : Forall (Forall (fun c => isspace c = true)) (split RS data)).
  { apply Forall_split. apply Forall_forall. now apply forallb_forall. }
  induction A as [|p ps Hp Hps IH]; [reflexivity|].
  cbn [filter]. rewrite strip_blank; [exact IH|].
  apply forallb_forall. now apply Forall_forall.
Qed.

(** X5. An input whose decoded text is empty or white space only (the
    separators 0x1E and 0x1F count as white space) has no record: variant
    B writes an empty file, variant A writes the empty array, no error is
    raised, and both report 0 commits. *)
Theorem blank_input_gives_no_record (raw : bytes) :
  forallb isspace (decode raw) = true ->
  ToJsonl.main raw = []
  /\ ToJson.main raw = Ok (VList [])
  /\ ToJsonl.stdout raw = lit "Wrote 0 commits to commits_with_diffs.jsonl"
                          ++ [NL]
  /\ ToJson.stdout raw = Ok (lit "Wrote 0 commits to changes.json" ++ [NL]).
Proof.
  intros H. pose proof (records_blank _ H) as R.
  unfold ToJsonl.main, ToJson.main, ToJsonl.stdout, ToJson.stdout.
  cbv zeta. change (ToJsonl.records (decode raw)) with
    (ToJson.records (decode raw)).
  rewrite R. repeat split.
Qed.

Lemma blank_input_gives_no_record_witness :
  ToJsonl.main [x1e; x0a; x20; x1f; x1e; x0a] = []
  /\ ToJson.main [x1e; x0a; x20; x1f; x1e; x0a] = Ok (VList []).
Proof.
  destruct (blank_input_gives_no_record [x1e; x0a; x20; x1f; x1e; x0a])
    as [H1 [H2 _]]; [reflexivity|].
  split; assumption.
Defined.

(** The records of two texts put together with a record separator. *)
Lemma records_app (a b : str) :
  ToJson.records (a ++ RS :: b) = ToJson.records a ++ ToJson.records b.
Proof.
  unfold ToJson.records. now rewrite split_app_sep, filter_app.
Qed.

Lemma jsonl_run_app (r1 r2 : list str) :
  ToJsonl.run (r1 ++ r2) [] = ToJsonl.run r1 [] ++ ToJsonl.run r2 [].
Proof.
  rewrite !jsonl_run_text. cbn [app]. now rewrite map_app, concat_app.
Qed.

(** X6. Variant B treats every record by itself: the file written for
    two inputs joined by a byte 0x1E is the file written for the first
    followed by the file written for the second, whatever the bytes of
    the two inputs are. *)
Theorem jsonl_of_joined_inputs (a b : bytes) :
  ToJsonl.main (a ++ x1e :: b) = ToJsonl.main a ++ ToJsonl.main b.
Proof.
  unfold ToJsonl.main. cbv zeta.
  rewrite (decode_utf8_ascii_byte_bytes a x1e b eq_refl).
  change (ToJsonl.records ?d) with (ToJson.records d).
  change (Byte.to_N x1e) with RS.
  now rewrite records_app, jsonl_run_app.
Qed.

Lemma run_from (recs : list str) (commits : list value) :
  ToJson.run recs commits
  = (cs <- ToJson.run recs [] ;; Ok (commits ++ cs)).
Proof.
  pose proof (run_cases recs commits) as H1.
  pose proof (run_cases recs []) as H2.
  destruct (forallb record_parses recs).
  - destruct H1 as [cs1 [E1 F1]]. destruct H2 as [cs2 [E2 F2]].
    rewrite E1, E2. cbn [bind app]. do 2 f_equal.
    clear E1 E2. revert cs2 F2.
    induction F1 as [|r c rs cs Hc Hcs IH]; intros cs2 F2;
      inversion F2 as [|? c' ? cs' Hc' Hcs']; subst; [reflexivity|].
    f_equal; [congruence | now apply IH].
  - now rewrite H1, H2.
Qed.

Lemma run_app (r1 r2 : list str) (commits : list value) :
  ToJson.run (r1 ++ r2) commits
  = (cs <- ToJson.run r1 commits ;; ToJson.run r2 cs).
Proof.
  revert commits; induction r1 as [|r r1 IH]; intros commits;
    cbn [app ToJson.run]; [reflexivity|].
  destruct (ToJson.commit r) as [c | e]; cbn [bind]; [apply IH | reflexivity].
Qed.

(** X7. Variant A treats every record by itself as well: for two inputs
    joined by a byte 0x1E it writes the commits of the first followed by
    the commits of the second, and it ends with an error exactly when it
    does so for one of the two. *)
Theorem json_of_joined_inputs (a b : bytes) :
  ToJson.main (a ++ x1e :: b)
  = match ToJson.main a, ToJson.main b with
    | Ok (VList ca), Ok (VList cb) => Ok (VList (ca ++ cb))
    | _, _ => Raise ValueError
    end.
Proof.
  unfold ToJson.main. cbv zeta.
  rewrite (decode_utf8_ascii_byte_bytes a x1e b eq_refl).
  change (Byte.to_N x1e) with RS.
  rewrite records_app, run_app.
  destruct (ToJson.run (ToJson.records (decode a)) []) as [ca | e];
    cbn [bind].
  - rewrite run_from.
    destruct (ToJson.run (ToJson.records (decode b)) []) as [cb | e];
      cbn [bind]; [reflexivity | now rewrite (exn_eq e)].
  - now rewrite (exn_eq e).
Qed.

End RecordSplitter.

(** * Variant A: header, body and statistics of a record *)

Section RecordParts.

Import ToJson.

(** The cut at the first newline. *)
Lemma split_first_newline (rec : str) :
  (contains NL rec = false /\ split_max NL rec 1 = [rec])
  \/ (exists h rest,
         split_max NL rec 1 = [h; rest]
         /\ rec = h ++ NL :: rest /\ contains NL h = false).
Proof.
  induction rec as [|c t IH].
  - left. split; reflexivity.
  - cbn [split_max]. destruct (N.eqb_spec c NL) as [-> | Hc].
    + right. exists [], t. rewrite split_max_0. repeat split.
    + destruct IH as [[Hno Hs] | [h [rest [Hs [Ht Hh]]]]].
      * left. rewrite Hs. split; [|reflexivity].
        unfold contains in *. cbn [existsb]. rewrite Hno, orb_false_r.
        apply N.eqb_neq. congruence.
      * right. exists (c :: h), rest. rewrite Hs. split; [reflexivity|].
        split; [now rewrite Ht|].
        unfold contains in *. cbn [existsb]. rewrite Hh, orb_false_r.
        apply N.eqb_neq. congruence.
Qed.

Lemma header_and_body (rec : str) :
  contains NL (header rec) = false
  /\ join [US] (split US (header rec)) = header rec
  /\ (if contains NL rec
      then rec = header rec ++ NL :: body_plus rec
      else header rec = rec /\ body_plus rec = []).
Proof.
  unfold header, body_plus.
  destruct (split_first_newline rec) as [[Hno Hs] | [h [rest [Hs [Hr Hh]]]]];
    rewrite Hs; cbn [hd tl].
  - rewrite Hno, join_split. repeat split.
  - rewrite join_split. split; [exact Hh|]. split; [reflexivity|].
    assert (C : contains NL rec = true).
    { rewrite Hr, contains_app. unfold contains at 2. cbn [existsb].
      rewrite N.eqb_refl. apply orb_true_r. }
    now rewrite C.
Qed.

(** X8. Variant A loses nothing of a record when it cuts it: the header
    holds no newline, a record without a newline is its header and has an
    empty statistics text, any other record is its header, one newline
    and the statistics text, and the header is its fields joined by 0x1F. *)
Theorem record_is_header_and_body (rec : str) :
  contains NL (header rec) = false
  /\ join [US] (split US (header rec)) = header rec
  /\ (if contains NL rec
      then rec = header rec ++ NL :: body_plus rec
      else header rec = rec /\ body_plus rec = []).
Proof. apply header_and_body. Qed.

Lemma In_rstrip_by (p : char -> bool) (x : char) (s : str) :
  In x (rstrip_by p s) -> In x s.
Proof.
  unfold rstrip_by. intros H. apply in_rev in H.
  apply In_lstrip_by in H. now apply in_rev.
Qed.

Lemma In_strip (x : char) (s : str) : In x (strip s) -> In x s.
Proof.
  unfold strip. intros H. apply In_rstrip_by in H.
  now apply In_lstrip_by in H.
Qed.

Lemma contains_strip (x : char) (s : str) :
  contains x s = false -> contains x (strip s) = false.
Proof.
  rewrite !contains_false_iff. intros H Hin. apply H. now apply In_strip.
Qed.

(** A piece that [pad6] hands out is a piece of the split or empty. *)
Lemma pad6_nth_Forall (P : str -> Prop) (parts : list str) (k : nat) :
  P [] -> Forall P parts ->
  P (nth k (firstn 6 (parts ++ repeat [] 6)) []).
Proof.
  intros Hnil H.
  destruct (Nat.lt_ge_cases k 6) as [Hk | Hk].
  - rewrite pad6_nth by exact Hk.
    destruct (Nat.lt_ge_cases k (length parts)) as [Hlt | Hge].
    + rewrite Forall_forall in H. apply H. now apply nth_In.
    + now rewrite nth_overflow.
  - rewrite nth_overflow; [exact Hnil|]. rewrite length_firstn. lia.
Qed.

Lemma contains_piece (x : char) (s p : str) :
  contains x s = false -> (forall c, In c p -> In c s) ->
  contains x p = false.
Proof.
  rewrite !contains_false_iff. intros H Hsub Hin. apply H. now apply Hsub.
Qed.

(** X9. In a commit of variant A none of the six header fields holds a
    unit separator or a newline. *)
Theorem header_fields_hold_no_separator (rec : str) (c : value) (k : nat) :
  commit rec = Ok c -> (k < 6)%nat ->
  exists f,
    lookup (nth k header_keys EmptyString) c = Some (VStr f)
    /\ contains US f = false /\ contains NL f = false.
Proof.
  intros Hc Hk. apply commit_ok in Hc as [files ->].
  rewrite (commit_dict_lookup _ files k Hk).
  eexists. split; [reflexivity|].
  set (P := fun f : str => contains US f = false /\ contains NL f = false).
  assert (H : P (nth k (pad6 (split US (header rec))) [])).
  { unfold pad6. apply (pad6_nth_Forall P); [split; reflexivity|].
    pose proof (split_pieces_no_sep US (header rec)) as HU.
    destruct (header_and_body rec) as [HN [HJ _]].
    assert (HN' : Forall (Forall (fun c => c <> NL))
                    (split US (header rec))).
    { apply Forall_split. apply Forall_forall. intros x Hx ->.
      apply contains_false_iff in HN. now apply HN. }
    rewrite Forall_forall in *. intros p Hp. split; [now apply HU|].
    apply contains_false_iff. intros Hin.
    specialize (HN' p Hp). rewrite Forall_forall in HN'.
    now apply (HN' NL Hin). }
  destruct H as [HU HN].
  destruct (k =? 5)%nat; split; auto using contains_strip.
Qed.

Lemma header_fields_hold_no_separator_witness :
  exists f,
    lookup "subject"
      (commit_dict (pad6 (split US (lit "a1" ++ [US] ++ lit "d1")))
         [])
    = Some (VStr f)
    /\ contains US f = false /\ contains NL f = false.
Proof.
  refine (header_fields_hold_no_separator
            (lit "a1" ++ [US] ++ lit "d1" ++ [NL] ++ lit "text")
            _ 4 eq_refl _).
  repeat constructor.
Defined.

End RecordParts.

(** * The trimmed body *)

Section Trimmed.

Lemma lstrip_by_suffix (p : char -> bool) (s : str) :
  exists w, s = w ++ lstrip_by p s.
Proof.
  induction s as [|c t IH]; [now exists []|].
  cbn [lstrip_by]. destruct (p c).
  - destruct IH as [w Hw]. exists (c :: w). cbn [app]. now rewrite <- Hw.
  - now exists [].
Qed.

Lemma rstrip_by_prefix (p : char -> bool) (s : str) :
  exists w, s = rstrip_by p s ++ w.
Proof.
  unfold rstrip_by. destruct (lstrip_by_suffix p (rev s)) as [w Hw].
  exists (rev w). rewrite <- rev_app_distr, <- Hw. symmetry. apply rev_involutive.
Qed.

Lemma strip_head (s : str) : isspace (hd 0 (strip s)) = false.
Proof.
  unfold strip.
  destruct (rstrip_by_prefix isspace (lstrip_by isspace s)) as [w Hw].
  destruct (rstrip_by isspace (lstrip_by isspace s)) as [|c t]; [reflexivity|].
  cbn [hd]. cbn [app] in Hw.
  now destruct (lstrip_by_head isspace s c (t ++ w) Hw).
Qed.

Lemma strip_last (s : str) : isspace (last (strip s) 0) = false.
Proof.
  unfold strip, rstrip_by.
  destruct (lstrip_by isspace (rev (lstrip_by isspace s))) as [|c t] eqn:E;
    [reflexivity|].
  cbn [rev]. rewrite last_last.
  now destruct (lstrip_by_head isspace _ c t E).
Qed.

(** X10. In both variants the body of a record is trimmed: it neither
    begins nor ends with a white-space character (the characters 0x1C to
    0x1F and the white space beyond ASCII count as such). *)
Theorem body_is_trimmed (rec : str) :
  (exists b,
      lookup "body" (ToJsonl.parse_record rec) = Some (VStr b)
      /\ isspace (hd 0 b) = false /\ isspace (last b 0) = false)
  /\ (forall c, ToJson.commit rec = Ok c ->
        exists b,
          lookup "body" c = Some (VStr b)
          /\ isspace (hd 0 b) = false /\ isspace (last b 0) = false).
Proof.
  split.
  - rewrite parse_record_fields. cbv zeta.
    eexists. split; [reflexivity|]. split; [apply strip_head | apply strip_last].
  - intros c Hc. apply commit_ok in Hc as [files ->].
    eexists. split; [reflexivity|].
    split; [apply strip_head | apply strip_last].
Qed.

Lemma body_is_trimmed_witness :
  exists b,
    lookup "body"
      (ToJson.commit_dict
         (ToJson.pad6 (split US (join [US] [lit "s"; lit "d"; lit "a";
                                            lit "e"; lit "j";
                                            lit "  text " ++ [0xA0]])))
         [])
    = Some (VStr b)
    /\ isspace (hd 0 b) = false /\ isspace (last b 0) = false.
Proof.
  refine (proj2 (body_is_trimmed
                   (join [US] [lit "s"; lit "d"; lit "a"; lit "e"; lit "j";
                               lit "  text " ++ [0xA0]])) _ eq_refl).
Defined.

End Trimmed.

(** * Variant A: the entries of the statistics lines *)

Section Entries.

Import ToJson.

Lemma path_is_rest_of_line_aux (line : str) (fc : value) :
  file_change line = Ok (Some fc) ->
  exists add delete path a d,
    fc = file_change_dict path a d
    /\ line = add ++ [TAB] ++ delete ++ [TAB] ++ path
    /\ contains TAB add = false /\ contains TAB delete = false
    /\ count add = Ok a /\ count delete = Ok d.
Proof.
  intros H.
  destruct (accepted line) eqn:A;
    [|rewrite (file_change_rejected line A) in H; discriminate].
  rewrite (file_change_accepted line A) in H.
  apply bind_ok in H as [a [Ha H]]. apply bind_ok in H as [d [Hd H]].
  injection H as <-.
  apply accepted_iff in A as [_ [Hlen _]].
  pose proof (join_split TAB line) as J.
  pose proof (split_pieces_no_sep TAB line) as F.
  destruct (split TAB line) as [|c0 [|c1 [|c2 rest]]];
    cbn [length] in Hlen; try lia.
  exists c0, c1, (join [TAB] (c2 :: rest)), a, d.
  inversion F as [|? ? F0 F']; subst. inversion F' as [|? ? F1 _]; subst.
  repeat split; assumption.
Qed.



Lemma stat_lines_entries (lines : list str) (files out : list value) :
  stat_lines lines files = Ok out ->
  exists entries,
    out = files ++ entries
    /\ Forall2 (fun l f => file_change l = Ok (Some f))
         (filter accepted lines) entries.
Proof.
  revert files; induction lines as [|l lines IH]; intros files H.
  - cbn [stat_lines] in H. injection H as <-.
    exists []. split; [now rewrite app_nil_r | constructor].
  - cbn [stat_lines] in H. apply bind_ok in H as [fc [Hfc H]].
    destruct (IH _ H) as [entries [Hout Hall]].
    cbn [filter]. destruct (accepted l) eqn:A.
    + destruct fc as [d|].
      * exists (d :: entries). split; [now rewrite Hout, <- app_assoc|].
        now constructor.
      * rewrite (file_change_accepted l A) in Hfc.
        apply bind_ok in Hfc as [a [_ Hfc]].
        apply bind_ok in Hfc as [d [_ Hfc]]. discriminate.
    + rewrite (file_change_rejected l A) in Hfc. injection Hfc as <-.
      now exists entries.
Qed.

Lemma files_are_the_accepted_lines_aux (rec : str) (c : value) :
  commit rec = Ok c ->
  exists files,
    lookup "files" c = Some (VList files)
    /\ Forall2 (fun l f => file_change l = Ok (Some f))
         (filter accepted (splitlines (body_plus rec))) files.
Proof.
  rewrite commit_unfold. intros H. apply bind_ok in H as [files [Hf H]].
  injection H as <-.
  apply stat_lines_entries in Hf as [entries [-> Hall]].
  exists entries. cbn [app]. split; [reflexivity | exact Hall].
Qed.

(** X12. The files list of a commit of variant A has one entry for each
    accepted line of the statistics text (a line with a tab, at least
    three columns, a first and a second column that are not blank), in
    the order of the lines, and nothing else. *)
Theorem files_are_the_accepted_lines (rec : str) (c : value) :
  commit rec = Ok c ->
  exists files,
    lookup "files" c = Some (VList files)
    /\ Forall2 (fun l f => file_change l = Ok (Some f))
         (filter accepted (splitlines (body_plus rec))) files
    /\ length files
       = length (filter accepted (splitlines (body_plus rec))).
Proof.
  intros H.
  destruct (files_are_the_accepted_lines_aux rec c H) as [files [Hl Hall]].
  exists files. split; [exact Hl|]. split; [exact Hall|].
  symmetry. eapply Forall2_length; eauto.
Qed.

Lemma files_are_the_accepted_lines_witness :
  exists files,
    lookup "files"
      (commit_dict (pad6 [lit "c0ffee"])
         [file_change_dict (lit "a.c") 1 2; file_change_dict (lit "b.png") 0 0])
    = Some (VList files)
    /\ length files = 2%nat.
Proof.
  destruct (files_are_the_accepted_lines
              (lit "c0ffee" ++ [NL] ++ lit "message" ++ [NL; NL]
               ++ lit "1" ++ [TAB] ++ lit "2" ++ [TAB] ++ lit "a.c" ++ [NL]
               ++ lit " 2 files changed" ++ [NL]
               ++ lit "-" ++ [TAB] ++ lit "-" ++ [TAB] ++ lit "b.png")
              _ eq_refl) as [files [H1 [_ H3]]].
  exists files. split; [exact H1 | exact H3].
Defined.

End Entries.

(** * Variant B: the parts of a record *)

Section RecordPartsB.

Import ToJsonl.

Lemma nth_push_0 (c : char) (pieces : list str) :
  nth 0 (push c pieces) [] = c :: nth 0 pieces [].
Proof. destruct pieces; reflexivity. Qed.

Lemma nth_push_S (c : char) (pieces : list str) (k : nat) :
  pieces <> [] -> nth (S k) (push c pieces) [] = nth (S k) pieces [].
Proof. destruct pieces; [congruence | reflexivity]. Qed.

(** The pieces before the last possible cut hold no separator. *)
Lemma split_max_piece_no_sep (sep : char) (s : str) (m k : nat) :
  (k < m)%nat -> contains sep (nth k (split_max sep s m) []) = false.
Proof.
  revert m k; induction s as [|c t IH]; intros m k Hk.
  - cbn [split_max]. destruct k as [|[|k]]; reflexivity.
  - cbn [split_max]. destruct m as [|m]; [lia|].
    destruct (N.eqb_spec c sep) as [-> | Hc].
    + destruct k as [|k]; [reflexivity|]. cbn [nth]. apply IH. lia.
    + destruct k as [|k].
      * rewrite nth_push_0. unfold contains. cbn [existsb].
        fold (contains sep (nth 0 (split_max sep t (S m)) [])).
        rewrite IH by lia. rewrite orb_false_r.
        apply N.eqb_neq. congruence.
      * rewrite nth_push_S by apply split_max_not_nil. apply IH. lia.
Qed.

(** The number of pieces: one more than the separators, up to the limit. *)
Lemma length_split_max_count (sep : char) (s : str) (m : nat) :
  length (split_max sep s m) = S (Nat.min m (count_occ N.eq_dec s sep)).
Proof.
  revert m; induction s as [|c t IH]; intros m.
  - cbn [split_max count_occ length]. now rewrite Nat.min_0_r.
  - cbn [split_max count_occ]. destruct m as [|m]; [reflexivity|].
    destruct (N.eq_dec c sep) as [-> | Hc].
    + rewrite N.eqb_refl. cbn [length]. rewrite IH. reflexivity.
    + apply N.eqb_neq in Hc. rewrite Hc.
      rewrite length_push by apply split_max_not_nil. apply IH.
Qed.

(** X13. Variant B loses nothing of a record when it cuts it: the parts,
    seven at most, joined by 0x1F are the record. *)
Theorem record_is_its_parts (rec : str) :
  join [US] (split_max US rec 6) = rec
  /\ (length (split_max US rec 6) <= 7)%nat.
Proof.
  split; [apply join_split_max | apply length_split_max].
Qed.

(** X14. In a record of variant B none of the six header fields holds a
    unit separator; only the patch can. *)
Theorem header_fields_hold_no_unit_separator (rec : str) (k : nat) :
  (k < 6)%nat ->
  exists f,
    lookup (nth k header_keys EmptyString) (parse_record rec) = Some (VStr f)
    /\ contains US f = false.
Proof.
  intros Hk. rewrite (parse_record_lookup rec k Hk).
  eexists. split; [reflexivity|].
  unfold pad6. rewrite (pad6_nth _ k Hk).
  pose proof (split_max_piece_no_sep US rec 6 k Hk) as H.
  destruct (k =? 5)%nat; auto using contains_strip.
Qed.

Lemma header_fields_hold_no_unit_separator_witness :
  exists f,
    lookup "body"
      (parse_record (join [US] [lit "s"; lit "d"; lit "a"; lit "e"; lit "j";
                                lit "b"; lit "p" ++ [US] ++ lit "q"]))
    = Some (VStr f)
    /\ contains US f = false.
Proof.
  refine (header_fields_hold_no_unit_separator _ 5 _).
  repeat constructor.
Defined.

(** X15. A record of variant B with fewer than six unit separators has
    no seventh segment: its patch is the empty string and its file_diffs
    is 0, and no error is raised. *)
Theorem short_record_has_empty_patch (rec : str) :
  (count_occ N.eq_dec rec US < 6)%nat ->
  lookup "patch" (parse_record rec) = Some (VStr [])
  /\ lookup "file_diffs" (parse_record rec) = Some (VInt 0).
Proof.
  intros H.
  assert (L : (length (split_max US rec 6) <= 6)%nat)
    by (rewrite length_split_max_count; lia).
  rewrite parse_record_fields. cbv zeta. cbn [lookup].
  assert (S7 : seventh (split_max US rec 6) = []).
  { unfold seventh. destruct (Nat.ltb_spec 6 (length (split_max US rec 6)));
      [lia | reflexivity]. }
  rewrite S7. split; reflexivity.
Qed.

Lemma short_record_has_empty_patch_witness :
  lookup "patch" (parse_record (lit "a1" ++ [US] ++ lit "d1"))
  = Some (VStr []).
Proof.
  refine (proj1 (short_record_has_empty_patch
                   (lit "a1" ++ [US] ++ lit "d1") _)).
  vm_compute. repeat constructor.
Defined.

End RecordPartsB.

(** * The JSON text *)

Section JsonText.

(** A list of given characters is printable. *)
Ltac printable_literal :=
  let x := fresh "x" in
  let Hx := fresh "Hx" in
  apply Forall_forall; intros x Hx; vm_compute in Hx; unfold printable;
  repeat match goal with
         | H : _ \/ _ |- _ => destruct H
         | H : False |- _ => destruct H
         end; subst; lia.

Lemma hex_digit_printable (n : N) : printable (hex_digit n).
Proof. unfold printable, hex_digit. destruct (n <? 10); lia. Qed.

Lemma escape_char_printable (c : char) : Forall printable (escape_char c).
Proof.
  unfold escape_char.
  repeat match goal with
         | |- context [if ?x =? ?y then _ else _] =>
             destruct (N.eqb_spec x y); [printable_literal|]
         end.
  destruct (N.ltb_spec c 32).
  - apply Forall_app. split; [printable_literal|].
    repeat constructor; apply hex_digit_printable.
  - repeat constructor. exact H.
Qed.

Lemma Forall_flat_map_str (P : char -> Prop) (f : char -> str) (s : str) :
  (forall c, In c s -> Forall P (f c)) -> Forall P (flat_map f s).
Proof.
  induction s as [|c t IH]; intros H; [constructor|].
  cbn [flat_map]. apply Forall_app. split.
  - apply H. now left.
  - apply IH. intros x Hx. apply H. now right.
Qed.

Lemma encode_basestring_printable (s : str) :
  Forall printable (encode_basestring s).
Proof.
  unfold encode_basestring. apply Forall_app. split.
  - printable_literal.
  - apply Forall_app. split.
    + apply Forall_flat_map_str. intros c _. apply escape_char_printable.
    + printable_literal.
Qed.

(** The characters of the decimal form of a number are digits or the
    minus sign. *)
Lemma string_of_uint_chars (d : Decimal.uint) :
  Forall (fun c => 45 <= c < 58) (lit (NilEmpty.string_of_uint d)).
Proof.
  induction d; [constructor | ..];
    (constructor; [cbn; lia | exact IHd]).
Qed.

Lemma int_repr_chars (z : Z) : Forall (fun c => 45 <= c < 58) (int_repr z).
Proof.
  unfold int_repr, NilZero.string_of_int.
  assert (U : forall d,
             Forall (fun c => 45 <= c < 58) (lit (NilZero.string_of_uint d))).
  { intros d. destruct d; [repeat constructor; cbn; lia
                          | apply string_of_uint_chars ..]. }
  destruct (Z.to_int z) as [d | d]; [apply U|].
  change (lit (String "-" (NilZero.string_of_uint d)))
    with (45 :: lit (NilZero.string_of_uint d)).
  constructor; [lia | apply U].
Qed.

Lemma Forall_join (P : char -> Prop) (sep : str) (pieces : list str) :
  Forall P sep -> Forall (Forall P) pieces -> Forall P (join sep pieces).
Proof.
  intros Hsep H. induction H as [|p ps Hp Hps IH]; [constructor|].
  destruct ps as [|q qs]; [exact Hp|].
  change (join sep (p :: q :: qs)) with (p ++ sep ++ join sep (q :: qs)).
  repeat (apply Forall_app; split); assumption.
Qed.

(** X16. The JSON text of a value holds no control character: every
    character below 0x20 of a string, the separators 0x1E and 0x1F, tabs,
    carriage returns and newlines among them, is written as an escape.
    The only control characters of the file of variant B are the
    newlines that end its lines. *)
Theorem json_text_has_no_control_character (v : value) (raw : bytes) :
  Forall (fun c => 32 <= c) (dumps v)
  /\ Forall (fun c => 32 <= c \/ c = NL) (ToJsonl.main raw).
Proof.
  assert (D : forall v, Forall printable (dumps v)).
  { clear v. intros v.
    induction v as [s | z | items IH | items IH] using value_induction.
    - apply encode_basestring_printable.
    - eapply Forall_impl; [|apply int_repr_chars].
      unfold printable. intros c Hc. unfold char in *. lia.
    - cbn [dumps].
      apply Forall_app. split; [printable_literal|].
      apply Forall_app. split; [|printable_literal].
      apply Forall_join; [printable_literal|].
      induction IH; constructor; auto.
    - cbn [dumps].
      apply Forall_app. split; [printable_literal|].
      apply Forall_app. split; [|printable_literal].
      apply Forall_join; [printable_literal|].
      induction IH as [|[k x] r Hx Hr IHr]; constructor; auto.
      apply Forall_app. split; [apply encode_basestring_printable|].
      apply Forall_app. split; [printable_literal | exact Hx]. }
  split; [apply D|].
  unfold ToJsonl.main. cbv zeta. rewrite jsonl_run_text. cbn [app].
  induction (ToJsonl.records (decode raw)) as [|r rs IH]; [constructor|].
  cbn [map concat].
  apply Forall_app. split; [apply Forall_app; split|exact IH].
  - eapply Forall_impl; [|apply D]. intros c Hc. cbv beta. left. exact Hc.
  - constructor; [right; reflexivity | constructor].
Qed.

Lemma escape_char_plain (c : char) :
  32 <= c -> c <> 34 -> c <> 92 -> escape_char c = [c].
Proof.
  intros H1 H2 H3. unfold escape_char.
  repeat match goal with
         | |- context [if ?x =? ?y then _ else _] =>
             destruct (N.eqb_spec x y); [unfold char in *; lia|]
         end.
  destruct (N.ltb_spec c 32); [unfold char in *; lia | reflexivity].
Qed.

(** X17. A string without control characters, double quotes and
    backslashes is written between two double quotes as it is: its
    characters beyond ASCII are not escaped. *)
Theorem plain_string_is_written_literally (s : str) :
  Forall (fun c => 32 <= c /\ c <> 34 /\ c <> 92) s ->
  dumps (VStr s) = [34] ++ s ++ [34].
Proof.
  intros H. cbn [dumps]. unfold encode_basestring. do 2 f_equal.
  induction H as [|c t [H1 [H2 H3]] Ht IH]; [reflexivity|].
  cbn [flat_map]. now rewrite (escape_char_plain c H1 H2 H3), IH.
Qed.

(** An author name in Japanese and Greek. *)
Lemma plain_string_is_written_literally_witness :
  dumps (VStr [0x65E5; 0x672C; 0x20; 0x3A3; 0x1F600])
  = [34; 0x65E5; 0x672C; 0x20; 0x3A3; 0x1F600; 34].
Proof.
  refine (plain_string_is_written_literally _ _).
  repeat constructor; discriminate.
Defined.

Lemma hex_value_digit (n : N) : n < 16 -> hex_value (hex_digit n) = n.
Proof.
  intros H. unfold hex_value, hex_digit.
  destruct (N.ltb_spec n 10).
  - destruct (N.ltb_spec (48 + n) 58); lia.
  - destruct (N.ltb_spec (97 + (n - 10)) 58); lia.
Qed.

(** The reader undoes the writer, one character at a time. *)
Lemma unescape_escape_char (c : char) (rest : str) :
  unescape (escape_char c ++ rest) = c :: unescape rest.
Proof.
  unfold escape_char.
  repeat match goal with
         | |- context [if ?x =? ?y then _ else _] =>
             destruct (N.eqb_spec x y); [subst; reflexivity|]
         end.
  destruct (N.ltb_spec c 32).
  - change (unescape ((lit "\u00" ++ [hex_digit (c / 16); hex_digit (c mod 16)])
                      ++ rest))
      with ((16 * hex_value (hex_digit (c / 16))
             + hex_value (hex_digit (c mod 16))) :: unescape rest).
    rewrite !hex_value_digit.
    + f_equal. symmetry. apply N.div_mod. lia.
    + apply N.mod_lt. lia.
    + apply N.Div0.div_lt_upper_bound. unfold char in *. lia.
  - cbn [app unescape].
    destruct (N.eqb_spec c 92); [congruence | reflexivity].
Qed.

Lemma unescape_escape (s : str) (rest : str) :
  unescape (flat_map escape_char s ++ rest) = s ++ unescape rest.
Proof.
  induction s as [|c t IH]; [reflexivity|].
  cbn [flat_map]. rewrite <- app_assoc, unescape_escape_char, IH.
  reflexivity.
Qed.

(** X18. Two strings that are written as the same JSON text are the same
    string: the escapes lose nothing and cannot be mistaken for one
    another. *)
Theorem json_string_is_injective (s1 s2 : str) :
  dumps (VStr s1) = dumps (VStr s2) -> s1 = s2.
Proof.
  cbn [dumps]. unfold encode_basestring. intros H.
  injection H as H.
  apply (f_equal unescape) in H.
  rewrite !unescape_escape in H.
  now apply app_inv_tail in H.
Qed.

Lemma json_string_is_injective_witness :
  [9; 0x1F; 34] = [9; 0x1F; 34].
Proof.
  exact (json_string_is_injective [9; 0x1F; 34] [9; 0x1F; 34] eq_refl).
Defined.

End JsonText.

(** * The bytes of the file written *)

Section FileBytes.

(** Arithmetic with quotients and remainders. *)
Ltac euclid := zify; Z.to_euclidean_division_equations; lia.

(** The two outcomes of every test of the goal. *)
Ltac split_tests :=
  repeat match goal with
  | |- context [?a <? ?b] => destruct (N.ltb_spec a b)
  | |- context [?a <=? ?b] => destruct (N.leb_spec a b)
  | |- context [?a =? ?b] => destruct (N.eqb_spec a b)
  end.

(** The decoder reads the bytes of a character back. *)
Lemma encode_char_decode (c : char) :
  is_scalar c = true ->
  exists bs, encode_char c = Ok bs
    /\ Forall (fun b => b < 256) bs
    /\ forall rest, decode_utf8 (bs ++ rest) = c :: decode_utf8 rest.
Proof.
  intros H. apply is_scalar_iff in H. unfold encode_char.
  destruct (N.ltb_spec c 0x80);
    [|destruct (N.ltb_spec c 0x800);
      [|destruct (N.ltb_spec c 0x10000);
        [replace ((0xD800 <=? c) && (c <? 0xE000)) with false
           by (symmetry; apply andb_false_iff;
               destruct H as [H | H];
               [left; apply N.leb_gt; lia | right; apply N.ltb_ge; lia])
        |destruct (N.ltb_spec c 0x110000); [|lia]]]];
    (eexists; split; [reflexivity|];
     split; [repeat constructor; euclid|];
     intros rest; cbn [app]; rewrite decode_utf8_unfold;
     unfold second_of_3, second_of_4, is_continuation;
     split_tests; cbn [andb negb]; try euclid;
     f_equal; euclid).
Qed.

Lemma encode_utf8_decode (s : str) :
  Forall (fun c => is_scalar c = true) s ->
  exists bs, encode_utf8 s = Ok bs
    /\ Forall (fun b => b < 256) bs
    /\ decode_utf8 bs = s.
Proof.
  intros H. induction H as [|c t Hc Ht IH].
  - exists []. repeat split. constructor.
  - destruct (encode_char_decode c Hc) as [bc [Ec [Bc Dc]]].
    destruct IH as [bt [Et [Bt Dt]]].
    exists (bc ++ bt). cbn [encode_utf8]. rewrite Ec, Et. cbn [bind].
    split; [reflexivity|]. split; [now apply Forall_app|].
    now rewrite Dc, Dt.
Qed.

Lemma to_N_byte_of (n : N) : n < 256 -> Byte.to_N (byte_of n) = n.
Proof.
  intros H. unfold byte_of.
  destruct (Byte.of_N n) as [b|] eqn:E.
  - now apply Byte.to_of_N.
  - apply Byte.of_N_None_iff in E. lia.
Qed.

Lemma encode_decode (s : str) :
  Forall (fun c => is_scalar c = true) s ->
  exists bs, encode s = Ok bs /\ decode bs = s.
Proof.
  intros H. destruct (encode_utf8_decode s H) as [ns [E [B D]]].
  exists (map byte_of ns). unfold encode, decode. rewrite E. cbn [bind].
  split; [reflexivity|].
  rewrite map_map.
  replace (map (fun n => Byte.to_N (byte_of n)) ns) with ns; [exact D|].
  clear E D. induction B as [|n r Hn Hr IH]; [reflexivity|].
  cbn [map]. now rewrite (to_N_byte_of n Hn), <- IH.
Qed.

(** X19. Writing a text as UTF-8 and decoding the bytes gives the text
    back, for every text of Unicode scalar values; the encoding fails for
    no such text. *)
Theorem encode_then_decode (s : str) :
  Forall (fun c => is_scalar c = true) s ->
  exists bs, encode s = Ok bs /\ decode bs = s.
Proof. apply encode_decode. Qed.

Lemma encode_then_decode_witness :
  exists bs,
    encode [0x41; 0xE9; 0x65E5; 0x1F600; 0xFFFD] = Ok bs
    /\ decode bs = [0x41; 0xE9; 0x65E5; 0x1F600; 0xFFFD].
Proof.
  refine (encode_then_decode _ _). repeat constructor.
Defined.

(** The characters of an escape are ASCII or the character escaped. *)
Lemma escape_char_chars (c x : char) :
  In x (escape_char c) -> x < 128 \/ x = c.
Proof.
  intros Hx.
  destruct (Forall_forall printable (escape_char c)) as [F _].
  unfold escape_char in Hx.
  repeat match type of Hx with
         | context [if ?a =? ?b then _ else _] =>
             destruct (N.eqb_spec a b);
             [left; vm_compute in Hx;
              repeat match goal with
                     | H : _ \/ _ |- _ => destruct H
                     | H : False |- _ => destruct H
                     end; subst; reflexivity|]
         end.
  destruct (N.ltb_spec c 32).
  - left. apply in_app_or in Hx as [Hx | Hx].
    + vm_compute in Hx.
      repeat match goal with
             | H : _ \/ _ |- _ => destruct H
             | H : False |- _ => destruct H
             end; subst; reflexivity.
    + unfold hex_digit in Hx. cbn [In] in Hx.
      destruct Hx as [Hx | [Hx | []]]; subst x; split_tests; euclid.
  - right. destruct Hx as [Hx | []]. now symmetry.
Qed.

Section Closed.

(** A property of characters that all ASCII characters have. *)
Variable P : char -> Prop.
Hypothesis P_ascii : forall c, c < 128 -> P c.

Lemma encode_basestring_chars (s : str) :
  Forall P s -> Forall P (encode_basestring s).
Proof.
  intros H. unfold encode_basestring.
  apply Forall_app. split; [repeat constructor; now apply P_ascii|].
  apply Forall_app. split; [|repeat constructor; now apply P_ascii].
  apply Forall_flat_map_str. intros c Hc.
  apply Forall_forall. intros x Hx.
  destruct (escape_char_chars c x Hx) as [Hlt | ->].
  - now apply P_ascii.
  - rewrite Forall_forall in H. now apply H.
Qed.

Lemma int_repr_ascii (z : Z) : Forall P (int_repr z).
Proof.
  eapply Forall_impl; [|apply int_repr_chars].
  intros c Hc. apply P_ascii. unfold char in *. lia.
Qed.

Lemma Forall_strip (s : str) : Forall P s -> Forall P (strip s).
Proof.
  rewrite !Forall_forall. intros H x Hx. apply H. now apply In_strip.
Qed.

Lemma Forall_lstrip (chars s : str) : Forall P s -> Forall P (lstrip chars s).
Proof.
  rewrite !Forall_forall. intros H x Hx. apply H.
  unfold lstrip in Hx. now apply In_lstrip_by in Hx.
Qed.

Lemma Forall_nth (parts : list str) (k : nat) :
  Forall (Forall P) parts -> Forall P (nth k parts []).
Proof.
  intros H. destruct (Nat.lt_ge_cases k (length parts)) as [Hlt | Hge].
  - rewrite Forall_forall in H. apply H. now apply nth_In.
  - rewrite nth_overflow by exact Hge. constructor.
Qed.

Lemma Forall_key (k : string) :
  Forall (fun c => c < 128) (lit k) -> Forall P (encode_basestring (lit k)).
Proof.
  intros H. apply encode_basestring_chars.
  eapply Forall_impl; [|exact H]. exact P_ascii.
Qed.

(** The text of a record of variant B holds ASCII characters and
    characters of the record only. *)
Lemma parse_record_chars (rec : str) :
  Forall P rec -> Forall P (dumps (ToJsonl.parse_record rec)).
Proof.
  intros H.
  pose proof (Forall_split_max P US rec 6 H) as Hparts.
  assert (Hf : forall k,
             Forall P (nth k (ToJsonl.pad6 (split_max US rec 6)) [])).
  { intros k. unfold ToJsonl.pad6.
    apply (pad6_nth_Forall (Forall P)); [constructor | exact Hparts]. }
  assert (Hp : Forall P (lstrip [NL] (ToJsonl.seventh (split_max US rec 6)))).
  { apply Forall_lstrip. unfold ToJsonl.seventh.
    destruct (6 <? length (split_max US rec 6))%nat;
      [now apply Forall_nth | constructor]. }
  rewrite parse_record_fields. cbv zeta.
  cbn [dumps map join].
  repeat first
    [ apply Forall_key; vm_compute; repeat constructor
    | apply encode_basestring_chars;
      first [apply Forall_strip; apply Hf | apply Hf | exact Hp]
    | apply int_repr_ascii
    | apply Forall_app; split
    | apply Forall_forall; intros x Hx; apply P_ascii; vm_compute in Hx;
      repeat match goal with
             | H : _ \/ _ |- _ => destruct H
             | H : False |- _ => destruct H
             end; subst; reflexivity ].
Qed.

Lemma jsonl_main_chars (raw : bytes) :
  Forall P (decode raw) -> Forall P (ToJsonl.main raw).
Proof.
  intros H. unfold ToJsonl.main. cbv zeta. rewrite jsonl_run_text.
  cbn [app].
  assert (R : Forall (Forall P) (ToJsonl.records (decode raw))).
  { unfold ToJsonl.records. apply Forall_forall. intros r Hr.
    apply filter_In in Hr as [Hr _].
    pose proof (Forall_split P RS (decode raw) H) as S.
    rewrite Forall_forall in S. now apply S. }
  induction R as [|r rs Hr Hrs IH]; [constructor|].
  cbn [map concat].
  apply Forall_app. split; [apply Forall_app; split|exact IH].
  - now apply parse_record_chars.
  - repeat constructor. now apply P_ascii.
Qed.

End Closed.

(** X20. Variant B invents no character: every character of the file is
    an ASCII character or a character of the decoded input. *)
Theorem jsonl_characters_come_from_input (raw : bytes) (c : char) :
  In c (ToJsonl.main raw) -> c < 128 \/ In c (decode raw).
Proof.
  intros H.
  assert (F : Forall (fun c => c < 128 \/ In c (decode raw))
                (ToJsonl.main raw)).
  { apply jsonl_main_chars; [intros x Hx; now left|].
    apply Forall_forall. intros x Hx. now right. }
  rewrite Forall_forall in F. exact (F c H).
Qed.

Lemma jsonl_characters_come_from_input_witness :
  0xE9 < 128 \/ In 0xE9 (decode [x41; xc3; xa9; x1f; x42]).
Proof.
  refine (jsonl_characters_come_from_input [x41; xc3; xa9; x1f; x42] 0xE9 _).
  vm_compute. tauto.
Defined.

(** X21. For every input, the file of variant B is written without an
    encoding error, and its bytes, decoded as UTF-8, are the text that
    was written: no replacement character appears that the text did not
    hold. *)
Theorem jsonl_file_is_utf8 (raw : bytes) :
  exists bs, ToJsonl.file_bytes raw = Ok bs /\ decode bs = ToJsonl.main raw.
Proof.
  unfold ToJsonl.file_bytes. apply encode_decode.
  apply jsonl_main_chars.
  - intros c Hc. apply is_scalar_iff. left. unfold char in *. lia.
  - apply decode_utf8_scalar.
Qed.

End FileBytes.

(** * The report *)

Section Report.

(** X22. The number that variant B reports is the number of lines of the
    file it has written. Variant A reports the number of commits of the
    array it has written, and reports nothing when the run ends with an
    error. *)
Theorem report_counts_what_was_written (raw : bytes) :
  ToJsonl.stdout raw
  = lit "Wrote " ++ int_repr (Z.of_nat (line_count (ToJsonl.main raw)))
    ++ lit " commits to commits_with_diffs.jsonl" ++ [NL]
  /\ match ToJson.main raw with
     | Ok (VList commits) =>
         ToJson.stdout raw
         = Ok (lit "Wrote " ++ int_repr (Z.of_nat (length commits))
               ++ lit " commits to changes.json" ++ [NL])
     | _ => ToJson.stdout raw = Raise ValueError
     end.
Proof.
  split.
  - unfold ToJsonl.stdout, ToJsonl.report, ToJsonl.main. cbv zeta.
    destruct (jsonl_lines (ToJsonl.records (decode raw))) as [-> Hall].
    now rewrite (line_count_lines _ Hall), length_map.
  - unfold ToJson.stdout, ToJson.main. cbv zeta.
    destruct (ToJson.run (ToJson.records (decode raw)) []) as [cs | e];
      cbn [bind]; [reflexivity | now rewrite (exn_eq e)].
Qed.

End Report.

(** * Variant A: lines and signs *)

Section LinesAndSigns.

Import ToJson.

(** No line of [splitlines] holds a line boundary. *)
Lemma splitlines_no_linebreak (s : str) :
  Forall (Forall (fun c => is_linebreak c = false)) (splitlines s).
Proof.
  remember (length s) as n eqn:Hn.
  revert s Hn; induction n as [n IH] using lt_wf_ind; intros s Hn.
  destruct s as [|c t]; [constructor|].
  assert (Ht : Forall (Forall (fun c => is_linebreak c = false))
                 (splitlines t))
    by (apply (IH (length t)); [subst n; simpl; lia | reflexivity]).
  cbn [splitlines]. destruct (is_linebreak c) eqn:E.
  - constructor; [constructor|].
    destruct (c =? CR); [|exact Ht].
    destruct t as [|c' t']; [exact Ht|].
    destruct (c' =? NL); [|exact Ht].
    apply (IH (length t')); [subst n; simpl; lia | reflexivity].
  - apply Forall_push; assumption.
Qed.

(** X23. The path of an entry of variant A holds no line boundary of
    [splitlines]: no newline, and no carriage return either, so that the
    lines of a text with "\r\n" line ends give the same paths as with
    "\n". *)
Theorem paths_hold_no_line_break (rec : str) (c : value) :
  commit rec = Ok c ->
  exists files,
    lookup "files" c = Some (VList files)
    /\ Forall (fun f => exists path a d,
                   f = file_change_dict path a d
                   /\ Forall (fun ch => is_linebreak ch = false) path)
         files.
Proof.
  intros H.
  destruct (files_are_the_accepted_lines_aux rec c H) as [files [Hl Hall]].
  exists files. split; [exact Hl|].
  pose proof (splitlines_no_linebreak (body_plus rec)) as L.
  assert (L' : Forall (Forall (fun ch => is_linebreak ch = false))
                 (filter accepted (splitlines (body_plus rec)))).
  { apply Forall_forall. intros l Hl'. apply filter_In in Hl' as [Hl' _].
    rewrite Forall_forall in L. now apply L. }
  clear Hl L. induction Hall as [|l f ls fs Hf Hfs IH]; [constructor|].
  inversion L' as [|? ? Hline Hrest]; subst.
  constructor; [|now apply IH].
  destruct (path_is_rest_of_line_aux l f Hf)
    as [add [delete [path [a [d [-> [Hline' _]]]]]]].
  exists path, a, d. split; [reflexivity|].
  rewrite Hline' in Hline.
  apply Forall_app in Hline as [_ Hline].
  apply Forall_app in Hline as [_ Hline].
  apply Forall_app in Hline as [_ Hline].
  now apply Forall_app in Hline as [_ Hline].
Qed.

(** Two statistics lines ended by "\r\n"; the header keeps its carriage
    return, the paths do not. *)
Lemma paths_hold_no_line_break_witness :
  exists files,
    lookup "files"
      (commit_dict (pad6 [lit "c0ffee" ++ [CR]])
         [file_change_dict (lit "a.c") 1 2;
          file_change_dict (lit "b.png") 0 0])
    = Some (VList files)
    /\ Forall (fun f => exists path a d,
                   f = file_change_dict path a d
                   /\ Forall (fun ch => is_linebreak ch = false) path)
         files.
Proof.
  exact (paths_hold_no_line_break
           (lit "c0ffee" ++ [CR; NL]
            ++ lit "1" ++ [TAB] ++ lit "2" ++ [TAB] ++ lit "a.c" ++ [CR; NL]
            ++ lit "-" ++ [TAB] ++ lit "-" ++ [TAB] ++ lit "b.png"
            ++ [CR; NL])
           _ eq_refl).
Defined.

(** X24. A count of variant A is below zero only when its column holds a
    minus sign and is not the literal "-": digits, white space, a plus
    sign and underscores never give a negative count. *)
Theorem negative_count_needs_minus_sign (col : str) (z : Z) :
  count col = Ok z -> (z < 0)%Z ->
  In 45 col /\ col <> lit "-".
Proof.
  unfold count. intros H Hz.
  destruct (str_eqb col (lit "-")) eqn:E.
  - injection H as <-. lia.
  - split; [eapply int_negative; eauto|].
    intros ->. discriminate.
Qed.

Lemma negative_count_needs_minus_sign_witness :
  In 45 (lit " -1_2 ") /\ lit " -1_2 " <> lit "-".
Proof.
  refine (negative_count_needs_minus_sign (lit " -1_2 ") (-12) eq_refl _).
  reflexivity.
Defined.

End LinesAndSigns.
